(** * irclog2html: a shallow embedding of [irclog2html.py] and its properties

    The development follows the layout of the Python source:
    - [PyStr]       the Python 2 string and [re] operations the program uses;
    - [LogParser]   the line classifier ([LogParser.__iter__]);
    - [Colour]      [ColourChooser] and its [choose] method;
    - [Styles]      the four output styles;
    - [Driver]      [escape], [log2html] and the file loop of [main].

    Python 2 [str] values are byte strings and are modelled by [string]
    (one [ascii] per byte); Python integers are modelled by [Z]; the
    [float] arithmetic of [ColourChooser.choose] is modelled by exact
    rational arithmetic over [Q]; exceptions are modelled by the [result]
    type below. *)

From Stdlib Require Import ZArith QArith Qround String Ascii List Lia Lqa Bool.
From stdpp Require Import gmap strings.

Local Open Scope string_scope.

(** ** Exceptions *)

Inductive Exn : Type :=
| NameError (name : string)
| AssertionError
| ZeroDivisionError
| ReError (msg : string).

Inductive result (A : Type) : Type :=
| Ok (a : A)
| Raise (e : Exn).

Arguments Ok {A} a.
Arguments Raise {A} e.

Definition bind {A B : Type} (r : result A) (k : A → result B) : result B :=
  match r with
  | Ok a => k a
  | Raise e => Raise e
  end.

Notation "'let!' x ':=' r 'in' k" := (bind r (fun x => k))
  (at level 10, x name, r at level 100, k at level 200).

(** ** Python string operations *)

Module PyStr.

(** Characters that cannot be typed inside a string literal. *)
Definition dq : string := String "034"%char "".
Definition NUL : string := String "000"%char "".
Definition LF : ascii := "010"%char.
Definition CR : ascii := "013"%char.

Definition code (c : ascii) : nat := nat_of_ascii c.

(** [\d] of a byte pattern: the ASCII digits. *)
Definition is_digit (c : ascii) : bool :=
  (48 <=? code c)%nat && (code c <=? 57)%nat.

(** [\s] of a byte pattern: space, [\t], [\n], [\v], [\f], [\r]. *)
Definition is_space (c : ascii) : bool :=
  (code c =? 32)%nat || ((9 <=? code c)%nat && (code c <=? 13)%nat).

Definition is_octdigit (c : ascii) : bool :=
  (48 <=? code c)%nat && (code c <=? 55)%nat.

(** [s[n:]] *)
Fixpoint drop (n : nat) (s : string) : string :=
  match n, s with
  | O, _ => s
  | S _, "" => ""
  | S k, String _ s' => drop k s'
  end.

(** Whether [s] begins with [p]. *)
Fixpoint is_prefix (p s : string) : bool :=
  match p, s with
  | "", _ => true
  | String _ _, "" => false
  | String a p', String b s' => Ascii.eqb a b && is_prefix p' s'
  end.

(** [s.startswith(p)] *)
Definition startswith (s p : string) : bool := is_prefix p s.

(** [sub in s] *)
Fixpoint contains (sub s : string) : bool :=
  is_prefix sub s ||
  match s with
  | "" => false
  | String _ s' => contains sub s'
  end.

(** [s.rstrip('\r\n')]: every trailing CR or LF is removed. *)
Fixpoint rstrip_crlf (s : string) : string :=
  match s with
  | "" => ""
  | String c s' =>
      let r := rstrip_crlf s' in
      if (Ascii.eqb c CR || Ascii.eqb c LF) && String.eqb r ""
      then "" else String c r
  end.

(** [s.replace(old, new)] for a non-empty [old]: occurrences are replaced
    from left to right and do not overlap.  [skip] counts the characters
    of an occurrence that are still to be passed over. *)
Fixpoint replace_from (old new : string) (skip : nat) (s : string) : string :=
  match s with
  | "" => ""
  | String c s' =>
      match skip with
      | S k => replace_from old new k s'
      | O =>
          if is_prefix old s
          then new +:+ replace_from old new (String.length old - 1) s'
          else String c (replace_from old new 0 s')
      end
  end.

Definition replace (old new s : string) : string := replace_from old new 0 s.

(** [''.join([c for c in s if p(c)])] *)
Fixpoint filter (p : ascii → bool) (s : string) : string :=
  match s with
  | "" => ""
  | String c s' => if p c then String c (filter p s') else filter p s'
  end.

(** The rest of [s] after the literal [p], when [s] starts with it. *)
Definition after (p s : string) : option string :=
  if is_prefix p s then Some (drop (String.length p) s) else None.

(** The longest prefix of [s] whose characters satisfy [p], and the rest. *)
Fixpoint span (p : ascii → bool) (s : string) : string * string :=
  match s with
  | "" => ("", "")
  | String c s' =>
      if p c then let '(a, b) := span p s' in (String c a, b)
      else ("", s)
  end.

(** [.] without DOTALL: any character but a newline. *)
Definition is_dot (c : ascii) : bool := negb (Ascii.eqb c LF).

End PyStr.

(** ** Log parsing *)

Module LogParser.
Import PyStr.

(** The [Enum] values of the class. *)
Inductive Enum : Type :=
| COMMENT | ACTION | JOIN | PART | NICKCHANGE | SERVER | OTHER.

(** One yielded tuple [time, what, info].  The shape of [info] is fixed
    by [what]: a pair [(nick, text)] for [COMMENT], a triple
    [(text, oldnick, newnick)] for [NICKCHANGE], the line itself for the
    others; [time] is [None] when the line carries no timestamp. *)
Inductive Event : Type :=
| Comment (time : option string) (nick text : string)
| Action (time : option string) (text : string)
| Join (time : option string) (text : string)
| Part (time : option string) (text : string)
| NickChange (time : option string) (text oldnick newnick : string)
| Server (time : option string) (text : string)
| Other (time : option string) (text : string).

Definition what (ev : Event) : Enum :=
  match ev with
  | Comment _ _ _ => COMMENT
  | Action _ _ => ACTION
  | Join _ _ => JOIN
  | Part _ _ => PART
  | NickChange _ _ _ _ => NICKCHANGE
  | Server _ _ => SERVER
  | Other _ _ => OTHER
  end.

(** *** The patterns, as the class compiles them *)
Definition TIME_REGEXP : string :=
  "^\[?((?:\d\d\d\d-\d\d-\d\dT)?\d\d:\d\d(:\d\d)?)\]? +".
Definition NICK_REGEXP : string := "^<(.*?)>\s".
Definition NICK_CHANGE_REGEXP : string :=
  "^(?:\*\*\*|---) (.*?) (?:are|is) now known as (.*)".

(** *** Matching [TIME_REGEXP]

    Every matcher returns the text it consumed and the rest of the
    input; an optional part is tried first and given up when what
    follows it fails, as the backtracking matcher does. *)

(** Exactly [n] characters of class [p]. *)
Fixpoint chars (p : ascii → bool) (n : nat) (s : string)
  : option (string * string) :=
  match n with
  | O => Some ("", s)
  | S k =>
      match s with
      | String c s' =>
          if p c then
            match chars p k s' with
            | Some (a, r) => Some (String c a, r)
            | None => None
            end
          else None
      | "" => None
      end
  end.

(** The literal [p]. *)
Definition lit (p : string) (s : string) : option (string * string) :=
  match after p s with
  | Some r => Some (p, r)
  | None => None
  end.

(** A sequence of matchers, the consumed texts concatenated. *)
Fixpoint in_turn (ms : list (string → option (string * string))) (s : string)
  : option (string * string) :=
  match ms with
  | [] => Some ("", s)
  | m :: ms' =>
      match m s with
      | Some (a, r) =>
          match in_turn ms' r with
          | Some (b, r') => Some (a +:+ b, r')
          | None => None
          end
      | None => None
      end
  end.

(** The end of the pattern: an optional closing bracket, then one or more spaces (greedy).
    Only the rest of the input is returned: it lies outside group 1. *)
Definition time_tail (s : string) : option string :=
  let spaces1 (t : string) : option string :=
    match t with
    | String " " _ => Some (snd (span (Ascii.eqb " ") t))
    | _ => None
    end in
  match lit "]" s with
  | Some (_, r) =>
      match spaces1 r with
      | Some r' => Some r'
      | None => spaces1 s
      end
  | None => spaces1 s
  end.

(** Hours and minutes, optional seconds, followed by [time_tail]. *)
Definition time_hm (s : string) : option (string * string) :=
  match in_turn [chars is_digit 2; lit ":"; chars is_digit 2] s with
  | Some (hm, r) =>
      let without_seconds :=
        match time_tail r with
        | Some r' => Some (hm, r')
        | None => None
        end in
      match in_turn [lit ":"; chars is_digit 2] r with
      | Some (sec, r1) =>
          match time_tail r1 with
          | Some r' => Some (hm +:+ sec, r')
          | None => without_seconds
          end
      | None => without_seconds
      end
  | None => None
  end.

(** Group 1 and what follows it. *)
Definition time_body (s : string) : option (string * string) :=
  match in_turn [chars is_digit 4; lit "-"; chars is_digit 2; lit "-";
             chars is_digit 2; lit "T"] s with
  | Some (date, r) =>
      match time_hm r with
      | Some (hm, r') => Some (date +:+ hm, r')
      | None => time_hm s
      end
  | None => time_hm s
  end.

(** [TIME_REGEXP.match(line)]: [m.group(1)] and [line[len(m.group(0)):]]. *)
Definition match_time (line : string) : option (string * string) :=
  match lit "[" line with
  | Some (_, r) =>
      match time_body r with
      | Some x => Some x
      | None => time_body line
      end
  | None => time_body line
  end.

(** *** Matching [NICK_REGEXP]

    After the opening [<], the lazy group grows one character at a time
    (never over a newline) until a [>] followed by a whitespace
    character is found.  Returns [m.group(1)] and [line[len(m.group(0)):]]. *)
Fixpoint nick_scan (s : string) : option (string * string) :=
  match s with
  | "" => None
  | String c s' =>
      let grow :=
        if is_dot c then
          match nick_scan s' with
          | Some (n, r) => Some (String c n, r)
          | None => None
          end
        else None in
      if Ascii.eqb c ">" then
        match s' with
        | String w r => if is_space w then Some ("", r) else grow
        | "" => grow
        end
      else grow
  end.

Definition match_nick (line : string) : option (string * string) :=
  match line with
  | String "<" s => nick_scan s
  | _ => None
  end.

(** *** Matching [NICK_CHANGE_REGEXP]

    After the marker and a space, the lazy first group grows until one
    of the two phrases follows; the second group is greedy and stops at
    a newline.  Returns [m.group(1)] and [m.group(2)]. *)
Fixpoint nick_change_scan (s : string) : option (string * string) :=
  let here :=
    match after " are now known as " s with
    | Some r => Some r
    | None => after " is now known as " s
    end in
  match here with
  | Some r => Some ("", fst (span is_dot r))
  | None =>
      match s with
      | "" => None
      | String c s' =>
          if is_dot c then
            match nick_change_scan s' with
            | Some (a, b) => Some (String c a, b)
            | None => None
            end
          else None
      end
  end.

Definition match_nick_change (line : string) : option (string * string) :=
  match after "*** " line with
  | Some r => nick_change_scan r
  | None =>
      match after "--- " line with
      | Some r => nick_change_scan r
      | None => None
      end
  end.

(** *** The body of the loop of [__iter__], for one line with its
    timestamp already removed.

    In the nick-change branch the tuple that is yielded names
    [oldnick] and [newnick], while the groups were bound to [nick_old]
    and [nick_new]; neither name is bound in the function or in the
    module, so evaluating the tuple raises [NameError] at [oldnick]. *)
Definition classify (time : option string) (line : string) : result Event :=
  match match_nick line with
  | Some (nick, text) => Ok (Comment time nick text)
  | None =>
      if startswith line "* " then Ok (Action time line)
      else if startswith line "*** "
              || startswith line "--> " && contains "joined" line
      then Ok (Join time line)
      else if startswith line "*** "
              || startswith line "--> "
                 && (contains "left" line || contains "quit" line)
      then Ok (Part time line)
      else
        match match_nick_change line with
        | Some (nick_old, nick_new) => Raise (NameError "oldnick")
        | None =>
            if startswith line "*** " || startswith line "--- "
            then Ok (Server time line)
            else Ok (Other time line)
        end
  end.

(** One iteration of the loop: [None] when the line is empty after
    [rstrip] and is skipped. *)
Definition parse_line (raw : string) : option (result Event) :=
  let line := rstrip_crlf raw in
  if String.eqb line "" then None
  else
    match match_time line with
    | Some (t, rest) => Some (classify (Some t) rest)
    | None => Some (classify None line)
    end.

End LogParser.

(** ** Colouring *)

Module Colour.
Import PyStr.

(** [int(x)] of a float: truncation toward zero. *)
Definition Qtrunc (x : Q) : Z := Z.quot (Qnum x) (Z.pos (Qden x)).

(** A [ColourChooser] instance. *)
Record ColourChooser : Type := mkChooser {
  rgbmin : Z;
  rgbmax : Z;
  rgb : list (Q * Q * Q)
}.

Definition unit_range (x : Q) : bool := Qle_bool 0 x && Qle_bool x 1.
Definition byte_range (z : Z) : bool := (0 <=? z)%Z && (z <? 256)%Z.

Definition assert (b : bool) : result unit :=
  if b then Ok tt else Raise AssertionError.

(** [__init__(self, rgbmin, rgbmax, rgb, a, b)]; [rgb] is [None] or a
    list, and an empty list is falsy like [None]. *)
Definition init (rgbmin rgbmax : Z) (rgb : option (list (Q * Q * Q)))
    (a b : Q) : result ColourChooser :=
  let! _ := assert (byte_range rgbmin) in
  let! _ := assert (byte_range rgbmax) in
  match rgb with
  | None | Some [] =>
      let! _ := assert (unit_range a) in
      let! _ := assert (unit_range b) in
      Ok (mkChooser rgbmin rgbmax
            [(a,b,b); (b,a,b); (b,b,a); (a,a,b); (a,b,a); (b,a,a)])
  | Some l =>
      let! _ := assert (forallb (fun '(r, g, b) =>
                  unit_range r && unit_range g && unit_range b) l) in
      Ok (mkChooser rgbmin rgbmax l)
  end.

(** The instance built by [ColourChooser()], with the default
    arguments [rgbmin=240, rgbmax=125, rgb=None, a=0.95, b=0.5]. *)
Definition default_chooser : ColourChooser :=
  let a := 95 # 100 in
  let b := 1 # 2 in
  mkChooser 240 125 [(a,b,b); (b,a,b); (b,b,a); (a,a,b); (a,b,a); (b,a,a)].

(** ['%x'] and ['%02x'] of an integer. *)
Definition hexdigit (d : Z) : ascii :=
  match String.get (Z.to_nat d) "0123456789abcdef" with
  | Some c => c
  | None => "?"%char
  end.

Fixpoint hex_digits (fuel : nat) (z : Z) (acc : string) : string :=
  match fuel with
  | O => acc
  | S k =>
      let acc' := String (hexdigit (z mod 16)) acc in
      if (z / 16 =? 0)%Z then acc' else hex_digits k (z / 16) acc'
  end.

Definition format_x (z : Z) : string :=
  let digits (v : Z) := hex_digits (S (Z.to_nat (Z.log2 v))) v "" in
  if (z <? 0)%Z then "-" +:+ digits (- z)%Z else digits z.

Definition format_02x (z : Z) : string :=
  let s := format_x z in
  if (String.length s <? 2)%nat then "0" +:+ s else s.

(** The three channels that [choose] computes before it checks them:
    the palette entry [i % len(self.rgb)] scaled by [m].  The floats of
    the code are exact rationals here: the model neither rounds nor
    overflows, while the code raises [OverflowError] once an integer
    or a product leaves the range of a float.  The statements below
    that range over all totals therefore carry a bound on the total. *)
Definition channels (self : ColourChooser) (i n : Z) : Z * Z * Z :=
  let n := if (n =? 0)%Z then 1%Z else n in
  let len := Z.of_nat (List.length (rgb self)) in
  let '(r, g, b) := nth (Z.to_nat (i mod len)) (rgb self) (0, 0, 0)%Q in
  let m := (inject_Z (rgbmin self)
            + inject_Z (rgbmax self - rgbmin self) * inject_Z (n - i)
              / inject_Z n)%Q in
  (Qtrunc (r * m), Qtrunc (g * m), Qtrunc (b * m)).

(** ['#%02x%02x%02x' % (r, g, b)] *)
Definition format_rgb (c : Z * Z * Z) : string :=
  let '(r, g, b) := c in
  "#" +:+ format_02x r +:+ format_02x g +:+ format_02x b.

(** [choose(self, i, n)]; an empty palette makes [i % len(self.rgb)]
    divide by zero. *)
Definition choose (self : ColourChooser) (i n : Z) : result string :=
  if (Z.of_nat (List.length (rgb self)) =? 0)%Z then Raise ZeroDivisionError
  else
    let '(r, g, b) := channels self i n in
    let! _ := assert (byte_range r) in
    let! _ := assert (byte_range g) in
    let! _ := assert (byte_range b) in
    Ok (format_rgb (r, g, b)).

(** The module-level [html_rgb = ColourChooser().choose]. *)
Definition html_rgb : Z → Z → result string := choose default_chooser.

End Colour.

(** ** Output styles *)

Module Styles.
Import PyStr.

Definition VERSION : string := "2.1mg".
Definition RELEASE : string := "2005-01-09".

Definition nl : string := String LF "".
Definition tab : string := String "009"%char "".

(** The methods of [AbstractStyle].  Each gives the text the method
    writes to the output file, the newline of [print] included. *)
Record Style : Type := mkStyle {
  name : string;
  description : string;
  head : string → string → string;
  foot : string;
  servermsg : string → string;
  nicktext : string → string → string → string
}.

Definition simplett_head (title charset : string) : string :=
  "<!DOCTYPE HTML PUBLIC " +:+ dq +:+ "-//W3C//DTD HTML 4.0 Transitional//EN"
    +:+ dq +:+ ">" +:+ nl +:+
  "<html>" +:+ nl +:+
  "<head>" +:+ nl +:+
  tab +:+ "<title>" +:+ title +:+ "</title>" +:+ nl +:+
  tab +:+ "<meta name=" +:+ dq +:+ "generator" +:+ dq +:+ " content=" +:+ dq
    +:+ "irclog2html.py " +:+ VERSION +:+ " by Marius Gedminas" +:+ dq
    +:+ ">" +:+ nl +:+
  tab +:+ "<meta name=" +:+ dq +:+ "version" +:+ dq +:+ " content=" +:+ dq
    +:+ VERSION +:+ " - " +:+ RELEASE +:+ dq +:+ ">" +:+ nl +:+
  tab +:+ "<meta http-equiv=" +:+ dq +:+ "Content-Type" +:+ dq
    +:+ " content=" +:+ dq +:+ "text/html; charset=" +:+ charset +:+ dq
    +:+ ">" +:+ nl +:+
  "</head>" +:+ nl +:+
  "<body text=" +:+ dq +:+ "#000000" +:+ dq +:+ " bgcolor=" +:+ dq
    +:+ "#ffffff" +:+ dq +:+ "><tt>" +:+ nl.

(** The statement ends in a comma: no newline follows the text. *)
Definition simplett_foot : string :=
  nl +:+
  "<br>Generated by irclog2html.py " +:+ VERSION +:+ " by <a href=" +:+ dq
    +:+ "mailto:marius@pov.lt" +:+ dq +:+ ">Marius Gedminas</a>" +:+ nl +:+
  " - find it at <a href=" +:+ dq +:+ "http://mg.pov.lt/irclog2html.py"
    +:+ dq +:+ ">mg.pov.lt</a>!" +:+ nl +:+
  "</tt></body></html>".

Definition SimpleTextStyle : Style := {|
  name := "simplett";
  description := "Text style with little use of colour";
  head := simplett_head;
  foot := simplett_foot;
  servermsg line := line +:+ "<br>" +:+ nl;
  nicktext nick text htmlcolour :=
    "&lt;" +:+ nick +:+ "&gt; " +:+ text +:+ "<br>" +:+ nl
|}.

Definition TextStyle : Style := {|
  name := "tt";
  description := "Text style using colours for each nick";
  head := head SimpleTextStyle;
  foot := foot SimpleTextStyle;
  servermsg := servermsg SimpleTextStyle;
  nicktext nick text htmlcolour :=
    "<font color=" +:+ dq +:+ htmlcolour +:+ dq +:+ ">&lt;" +:+ nick
      +:+ "&gt;</font>" +:+ " <font color=" +:+ dq +:+ "#000000" +:+ dq
      +:+ ">" +:+ text +:+ "</font><br>" +:+ nl
|}.

Definition SimpleTableStyle : Style := {|
  name := "simpletable";
  description := "Table style, without heavy use of colour";
  head title charset :=
    head SimpleTextStyle title charset +:+
    "<table cellspacing=3 cellpadding=2 border=0>" +:+ nl;
  foot := "</table>" +:+ nl +:+ foot SimpleTextStyle;
  servermsg line :=
    "<tr><td colspan=2><tt>" +:+ line +:+ "</tt></td></tr>" +:+ nl;
  nicktext nick text htmlcolour :=
    "<tr bgcolor=" +:+ dq +:+ "#eeeeee" +:+ dq +:+ "><th><font color=" +:+ dq
      +:+ htmlcolour +:+ dq +:+ ">" +:+ "<tt>" +:+ nick +:+ "</tt></font></th>"
      +:+ "<td width=" +:+ dq +:+ "100%" +:+ dq +:+ "><tt>" +:+ text
      +:+ "</tt></td></tr>" +:+ nl
|}.

Definition TableStyle : Style := {|
  name := "table";
  description := "Default style, using a table with bold colours";
  head := head SimpleTableStyle;
  foot := foot SimpleTableStyle;
  servermsg := servermsg SimpleTableStyle;
  nicktext nick text htmlcolour :=
    "<tr><th bgcolor=" +:+ dq +:+ htmlcolour +:+ dq +:+ "><font color=" +:+ dq
      +:+ "#ffffff" +:+ dq +:+ ">" +:+ "<tt>" +:+ nick +:+ "</tt></font></th>"
      +:+ "<td width=" +:+ dq +:+ "100%" +:+ dq +:+ " bgcolor=" +:+ dq
      +:+ "#eeeeee" +:+ dq +:+ "><tt><font" +:+ " color=" +:+ dq
      +:+ htmlcolour +:+ dq +:+ ">" +:+ text +:+ "</font></tt></td></tr>"
      +:+ nl
|}.

Definition STYLES : list Style :=
  [SimpleTextStyle; TextStyle; SimpleTableStyle; TableStyle].

End Styles.

(** ** Main *)

Module Driver.
Import PyStr LogParser Colour Styles.

(** *** [URL_REGEXP] and its substitution *)

Definition URL_REGEXP : string := "(http|https|ftp|gopher|news)://\S*".

Definition schemes : list string := ["http"; "https"; "ftp"; "gopher"; "news"].

(** The alternatives are tried in order; one that matches is given up
    when the separator does not follow it.  Returns group 1 and the
    input after the separator. *)
Fixpoint match_scheme (alts : list string) (s : string)
  : option (string * string) :=
  match alts with
  | [] => None
  | a :: alts' =>
      match after a s with
      | Some r =>
          match after "://" r with
          | Some r' => Some (a, r')
          | None => match_scheme alts' s
          end
      | None => match_scheme alts' s
      end
  end.

(** A match of [URL_REGEXP] that starts at the beginning of [s]: the
    groups 0 and 1. *)
Definition match_url (s : string) : option (list string) :=
  match match_scheme schemes s with
  | Some (scheme, r) =>
      let tail := fst (span (fun c => negb (is_space c)) r) in
      Some [scheme +:+ "://" +:+ tail; scheme]
  | None => None
  end.

(** A replacement template of [re.sub], parsed: literal characters and
    group references. *)
Inductive TItem : Type :=
| TLit (c : ascii)
| TGroup (n : nat).

Definition octal_value (ds : string) : nat :=
  let fix go (acc : nat) (s : string) : nat :=
    match s with
    | "" => acc
    | String c s' => go (acc * 8 + (code c - 48))%nat s'
    end in
  go 0%nat ds.

(** The template parser of [re]: a backslash and [0] start an octal
    escape of up to three digits, which stands for the character with
    that code and not for a group; a backslash and a digit from 1 to 9
    refer to that group, which the pattern must have.  A backslash
    before any other character is kept as it is. *)
Fixpoint parse_template (fuel : nat) (groups : nat) (t : string)
  : result (list TItem) :=
  match fuel with
  | O => Ok []
  | S fuel' =>
      match t with
      | "" => Ok []
      | String "\" (String c t') =>
          if Ascii.eqb c "0" then
            let '(d1, r1) := match t' with
                             | String x r => if is_octdigit x
                                             then (String x "", r) else ("", t')
                             | "" => ("", t')
                             end in
            let '(d2, r2) := match d1, r1 with
                             | String _ _, String x r =>
                                 if is_octdigit x
                                 then (String x "", r) else ("", r1)
                             | _, _ => ("", r1)
                             end in
            let v := (octal_value ("0" +:+ d1 +:+ d2) mod 256)%nat in
            let! items := parse_template fuel' groups r2 in
            Ok (TLit (ascii_of_nat v) :: items)
          else if is_digit c then
            let g := (code c - 48)%nat in
            if (g <=? groups)%nat then
              let! items := parse_template fuel' groups t' in
              Ok (TGroup g :: items)
            else Raise (ReError "invalid group reference")
          else
            let! items := parse_template fuel' groups t' in
            Ok (TLit "\" :: TLit c :: items)
      | String c t' =>
          let! items := parse_template fuel' groups t' in
          Ok (TLit c :: items)
      end
  end.

(** The replacement text for one match, given its groups. *)
Fixpoint expand (items : list TItem) (m : list string) : string :=
  match items with
  | [] => ""
  | TLit c :: items' => String c (expand items' m)
  | TGroup n :: items' => nth n m "" +:+ expand items' m
  end.

(** The scan of [URL_REGEXP.sub]: the leftmost match is replaced and
    the scan goes on after it.  [skip] counts the characters of the
    match that are still to be passed over. *)
Fixpoint sub_from (items : list TItem) (skip : nat) (s : string) : string :=
  match s with
  | "" => ""
  | String c s' =>
      match skip with
      | S k => sub_from items k s'
      | O =>
          match match_url s with
          | Some m =>
              expand items m
                +:+ sub_from items (String.length (nth 0 m "") - 1) s'
          | None => String c (sub_from items 0 s')
          end
      end
  end.

(** The raw template of both [URL_REGEXP.sub] calls,
    [r'<a href="\0">\0</a>']. *)
Definition URL_TEMPLATE : string :=
  "<a href=" +:+ dq +:+ "\0" +:+ dq +:+ ">\0</a>".

(** [URL_REGEXP.sub(r'<a href="\0">\0</a>', text)] *)
Definition linkify (text : string) : result string :=
  let! items := parse_template (String.length URL_TEMPLATE) 1 URL_TEMPLATE in
  Ok (sub_from items 0 text).

(** *** [escape] *)
Definition escape (s : string) : string :=
  let s := replace ">" "&gt;" (replace "<" "&lt;" (replace "&" "&amp;" s)) in
  filter (fun c => (31 <? code c)%nat) s.

(** *** [log2html] *)

(** The [colours] argument: one colour for each of the five keys of
    [DEFAULT_COLOURS]. *)
Record Colours : Type := mkColours {
  part : string;
  join : string;
  server : string;
  nickchange : string;
  action : string
}.

Definition DEFAULT_COLOURS : Colours := {|
  part := "#000099";
  join := "#009900";
  server := "#009900";
  nickchange := "#009900";
  action := "#CC00CC"
|}.

(** [colours[colour_map[what]]] when [what in colour_map]. *)
Definition colour_map (colours : Colours) (what : Enum) : option string :=
  match what with
  | PART => Some (part colours)
  | JOIN => Some (join colours)
  | SERVER => Some (server colours)
  | ACTION => Some (action colours)
  | NICKCHANGE => Some (nickchange colours)
  | COMMENT | OTHER => None
  end.

(** The local variables of [log2html] that live across iterations. *)
Record Registry : Type := mkRegistry {
  colour_nick : gmap string string;
  nickcount : Z;
  nickmax : Z
}.

Definition initial : Registry := mkRegistry ∅ 0 30.

(** A call of a formatter method. *)
Inductive Call : Type :=
| Head (title charset : string)
| Servermsg (line : string)
| Nicktext (nick text htmlcolour : string)
| Foot.

(** The arguments of the [html_rgb] call made for a new nick: the
    counter after its increment, and the estimate, doubled when the
    counter has reached it. *)
Definition alloc_args (st : Registry) : Z * Z :=
  let nickcount := (nickcount st + 1)%Z in
  let nickmax := if (nickcount >=? nickmax st)%Z
                 then (nickmax st * 2)%Z else nickmax st in
  (nickcount, nickmax).

(** The lookup of the colour of [nick], allocating one for a nick that
    has none ([colour_nick.get(nick)] is [None] or empty). *)
Definition nick_colour (st : Registry) (nick : string)
  : result (Registry * string) :=
  match colour_nick st !! nick with
  | Some (String c s) => Ok (st, String c s)
  | Some "" | None =>
      let '(nickcount, nickmax) := alloc_args st in
      let! htmlcolour := html_rgb nickcount nickmax in
      Ok (mkRegistry (<[nick := htmlcolour]> (colour_nick st))
            nickcount nickmax, htmlcolour)
  end.

(** The text of a non-comment line: links, then the colour of the kind. *)
Definition server_text (colours : Colours) (what : Enum) (text : string)
  : result string :=
  let! text := linkify text in
  match colour_map colours what with
  | Some colour =>
      Ok ("<font color=" +:+ dq +:+ colour +:+ dq +:+ ">" +:+ text
            +:+ "</font>")
  | None => Ok text
  end.

(** The body of the loop for one event. *)
Definition step (colours : Colours) (st : Registry) (ev : Event)
  : result (Registry * Call) :=
  match ev with
  | Comment _ nick text =>
      let nick := escape nick in
      let text := escape text in
      let! r := nick_colour st nick in
      let! text := linkify text in
      let text := replace "  " "&nbsp;&nbsp;" text in
      Ok (fst r, Nicktext nick text (snd r))
  | NickChange _ text oldnick newnick =>
      let text := escape text in
      let oldnick := escape oldnick in
      let newnick := escape newnick in
      let st :=
        match colour_nick st !! oldnick with
        | Some c =>
            mkRegistry (delete oldnick (<[newnick := c]> (colour_nick st)))
              (nickcount st) (nickmax st)
        | None => st
        end in
      let! text := server_text colours NICKCHANGE text in
      Ok (st, Servermsg text)
  | Action _ text | Join _ text | Part _ text | Server _ text
  | Other _ text =>
      let! text := server_text colours (what ev) (escape text) in
      Ok (st, Servermsg text)
  end.

(** The outcome of a run: the formatter calls made, in order, and
    either the final registry or the exception that ended the run. *)
Record Run : Type := mkRun {
  calls : list Call;
  outcome : result Registry
}.

Definition emit (c : Call) (r : Run) : Run :=
  mkRun (c :: calls r) (outcome r).

(** The loop over the events of a list. *)
Fixpoint run_events (colours : Colours) (st : Registry) (evs : list Event)
  : Run :=
  match evs with
  | [] => mkRun [] (Ok st)
  | ev :: evs' =>
      match step colours st ev with
      | Ok (st', c) => emit c (run_events colours st' evs')
      | Raise e => mkRun [] (Raise e)
      end
  end.

(** The loop over the lines of the input: the parser is a generator, so
    each line is parsed when the loop asks for the next event, after
    the events before it were written out. *)
Fixpoint run_lines (colours : Colours) (st : Registry) (infile : list string)
  : Run :=
  match infile with
  | [] => mkRun [] (Ok st)
  | raw :: infile' =>
      match parse_line raw with
      | None => run_lines colours st infile'
      | Some (Raise e) => mkRun [] (Raise e)
      | Some (Ok ev) =>
          match step colours st ev with
          | Ok (st', c) => emit c (run_lines colours st' infile')
          | Raise e => mkRun [] (Raise e)
          end
      end
  end.

(** [log2html(parser, formatter, title, colours, charset)], where
    [parser] is a [LogParser] over the lines [infile]. *)
Definition log2html (infile : list string) (title : string)
    (colours : Colours) (charset : string) : Run :=
  let r := run_lines colours initial infile in
  match outcome r with
  | Ok st => mkRun (Head title charset :: calls r ++ [Foot]) (Ok st)
  | Raise e => mkRun (Head title charset :: calls r) (Raise e)
  end.

(** *** The file loop of [main] *)

(** The files the program can see: the contents of the files that
    exist, and the paths whose opening fails for another reason than
    absence, each with the text of its error. *)
Record World : Type := mkWorld {
  files : gmap string string;
  unreadable : gmap string string;
  unwritable : gmap string string
}.

(** How [main] ends: it returns, [sys.exit] or [parser.error] ends the
    process with a message, or an exception leaves it. *)
Inductive Exit : Type :=
| Finished
| SystemExit (msg : string)
| UsageError (msg : string)
| Uncaught (e : Exn).

(** [open(filename)]: the contents, or the text of the error. *)
Definition open_read (w : World) (filename : string) : string + string :=
  match unreadable w !! filename with
  | Some e => inl e
  | None =>
      match files w !! filename with
      | Some data => inr data
      | None =>
          inl ("[Errno 2] No such file or directory: '" +:+ filename +:+ "'")
      end
  end.

(** [open(outfilename, "w")]: the file is created or emptied. *)
Definition open_write (w : World) (outfilename : string) : string + World :=
  match unwritable w !! outfilename with
  | Some e => inl e
  | None =>
      inr (mkWorld (<[outfilename := ""]> (files w)) (unreadable w)
             (unwritable w))
  end.

Definition write (w : World) (outfilename data : string) : World :=
  mkWorld (<[outfilename := data]> (files w)) (unreadable w) (unwritable w).

(** The lines a file object yields when iterated: each keeps its
    newline, the last one may lack it. *)
Fixpoint readlines_from (cur : string) (data : string) : list string :=
  match data with
  | "" => if String.eqb cur "" then [] else [cur]
  | String c data' =>
      if Ascii.eqb c LF then (cur +:+ String c "") :: readlines_from "" data'
      else readlines_from (cur +:+ String c "") data'
  end.

Definition readlines (data : string) : list string := readlines_from "" data.

(** What a formatter of the given style writes for a sequence of calls. *)
Definition print_call (style : Style) (c : Call) : string :=
  match c with
  | Head title charset => head style title charset
  | Servermsg line => servermsg style line
  | Nicktext nick text htmlcolour => nicktext style nick text htmlcolour
  | Foot => foot style
  end.

Fixpoint render (style : Style) (cs : list Call) : string :=
  match cs with
  | [] => ""
  | c :: cs' => print_call style c +:+ render style cs'
  end.

(** One iteration of the loop over [args]. *)
Definition convert (progname : string) (style : Style) (colours : Colours)
    (filename : string) (w : World) : Exit * World :=
  match open_read w filename with
  | inl e =>
      (SystemExit (progname +:+ ": cannot open " +:+ filename
                     +:+ " for reading: " +:+ e), w)
  | inr data =>
      let outfilename := filename +:+ ".html" in
      match open_write w outfilename with
      | inl e =>
          (SystemExit (progname +:+ ": cannot open " +:+ outfilename
                         +:+ " for writing: " +:+ e), w)
      | inr w' =>
          let r := log2html (readlines data) filename colours "iso-8859-1" in
          let w'' := write w' outfilename (render style (calls r)) in
          match outcome r with
          | Ok _ => (Finished, w'')
          | Raise e => (Uncaught e, w'')
          end
      end
  end.

(** [for filename in args: ...] *)
Fixpoint main_loop (progname : string) (style : Style) (colours : Colours)
    (args : list string) (w : World) : Exit * World :=
  match args with
  | [] => (Finished, w)
  | filename :: args' =>
      match convert progname style colours filename w with
      | (Finished, w') => main_loop progname style colours args' w'
      | stop => stop
      end
  end.

(** [main], after [optparse] has split the command line into the style
    name, the five colours and the file names. *)
Definition main (progname style_name : string) (colours : Colours)
    (args : list string) (w : World) : Exit * World :=
  if String.eqb style_name "help" then (Finished, w)
  else
    match List.find (fun st => String.eqb (name st) style_name) STYLES with
    | None => (UsageError "unknown style: <class '__main__.TableStyle'>", w)
    | Some style =>
        match args with
        | [] => (UsageError "required parameter missing", w)
        | _ => main_loop progname style colours args w
        end
    end.

End Driver.

Import PyStr LogParser Colour Styles Driver.

(** * Properties *)

(** ** Strings *)

Lemma append_inv_head (a b c : string) : a +:+ b = a +:+ c → b = c.
Proof.
  induction a as [|x a IH]; intros H; [exact H|].
  injection H as H. auto.
Qed.

Lemma append_cons (c : ascii) (a s : string) :
  String c a +:+ s = String c (a +:+ s).
Proof. reflexivity. Qed.

Lemma is_prefix_append (p s : string) : is_prefix p (p +:+ s) = true.
Proof.
  induction p as [|x p IH]; [reflexivity|].
  rewrite append_cons. simpl. rewrite Ascii.eqb_refl. exact IH.
Qed.

(** ** The classifier *)

Section Classifier.

(** A match of [NICK_REGEXP] splits the text after the opening bracket
    into the nick, a closing bracket, one whitespace character and the
    rest. *)
Lemma nick_scan_sound (s n r : string) :
  nick_scan s = Some (n, r) →
  ∃ w, is_space w = true ∧ s = n +:+ String ">" (String w r).
Proof.
  revert n r. induction s as [|c s IH]; intros n r H; simpl in H;
    [discriminate|].
  assert (G : (if is_dot c
               then match nick_scan s with
                    | Some (n0, r0) => Some (String c n0, r0)
                    | None => None
                    end
               else None) = Some (n, r) →
              ∃ w, is_space w = true ∧
                   String c s = n +:+ String ">" (String w r)).
  { destruct (is_dot c); [|discriminate].
    destruct (nick_scan s) as [[n0 r0]|] eqn:E; [|discriminate].
    intros [= <- <-]. destruct (IH _ _ eq_refl) as (w & Hw & ->).
    exists w. split; [exact Hw | reflexivity]. }
  destruct (Ascii.eqb c ">") eqn:Ec; [|exact (G H)].
  apply Ascii.eqb_eq in Ec. subst c.
  destruct s as [|w r0]; [exact (G H)|].
  destruct (is_space w) eqn:Hw; [|exact (G H)].
  injection H as <- <-. exists w. split; [exact Hw | reflexivity].
Qed.

(** [classify] yields a comment only through a match of [NICK_REGEXP]. *)
Lemma classify_comment_inv (time t : option string) (line nick text : string) :
  classify time line = Ok (Comment t nick text) →
  match_nick line = Some (nick, text).
Proof.
  unfold classify. destruct (match_nick line) as [[n x]|].
  - intros [= _ <- <-]. reflexivity.
  - repeat match goal with
           | |- context [if ?b then _ else _] => destruct b
           | |- context [match match_nick_change ?l with _ => _ end] =>
               destruct (match_nick_change l) as [[? ?]|]
           end; discriminate.
Qed.

(** The line of every comment has the shape the pattern asks for. *)
Lemma classify_comment_shape (time t : option string) (line nick text : string) :
  classify time line = Ok (Comment t nick text) →
  ∃ w, is_space w = true ∧
       line = "<" +:+ nick +:+ String ">" (String w text).
Proof.
  intros H. apply classify_comment_inv in H.
  destruct line as [|c s]; [discriminate|].
  unfold match_nick in H.
  destruct (Ascii.ascii_dec c "<") as [->|N].
  - apply nick_scan_sound in H. destruct H as (w & Hw & ->).
    exists w. split; [exact Hw | reflexivity].
  - destruct c as [[] [] [] [] [] [] [] []]; try discriminate.
    congruence.
Qed.

(** The classifier never yields a nick change: the branch that would
    raises instead. *)
Lemma classify_never_nickchange (time : option string) (line : string) (ev : Event) :
  classify time line = Ok ev → what ev ≠ NICKCHANGE.
Proof.
  unfold classify. destruct (match_nick line) as [[n x]|].
  - intros [= <-]. discriminate.
  - repeat match goal with
           | |- context [if ?b then _ else _] => destruct b
           | |- context [match match_nick_change ?l with _ => _ end] =>
               destruct (match_nick_change l) as [[? ?]|]
           end; intros [= <-]; discriminate.
Qed.

(** Whether a text starts with a whitespace character. *)
Definition followed_by_space (b : string) : bool :=
  match b with
  | String w _ => is_space w
  | "" => false
  end.

(** No match of [NICK_REGEXP] when no closing bracket has whitespace
    right after it. *)
Lemma nick_scan_none (s : string) :
  (∀ a b, s = a +:+ String ">" b → followed_by_space b = false) →
  nick_scan s = None.
Proof.
  induction s as [|c s IH]; intros H; [reflexivity|].
  assert (Hs : nick_scan s = None).
  { apply IH. intros a b ->. apply (H (String c a) b). reflexivity. }
  simpl. rewrite Hs.
  assert (G : (if is_dot c then None else None) = @None (string * string))
    by (destruct (is_dot c); reflexivity).
  destruct (Ascii.eqb c ">") eqn:Ec; [|exact G].
  apply Ascii.eqb_eq in Ec. subst c.
  destruct s as [|w r]; [exact G|].
  destruct (is_space w) eqn:Hw; [|exact G].
  specialize (H "" (String w r) eq_refl). simpl in H. congruence.
Qed.

(** C1. A line of the form [--- X is now known as Y] reaches the
    nick-change branch of the classifier, and there the classifier does
    not yield a nick-change event: it raises [NameError], because the
    yielded tuple names [oldnick], a variable that is bound nowhere.
    The line is not classified at all, with or without a timestamp. *)
Theorem classify_nick_change_raises :
  (∀ time, classify time "--- al is now known as bob"
           = Raise (NameError "oldnick"))
  ∧ parse_line "--- al is now known as bob" = Some (Raise (NameError "oldnick"))
  ∧ parse_line "[12:30] --- al is now known as bob"
    = Some (Raise (NameError "oldnick")).
Proof. repeat split. Qed.

(** C6. Every line that starts with three stars and a space is
    classified as a join, whatever follows: the join test comes before
    the part, nick-change and server tests and accepts the prefix
    alone.  So ["*** x has joined"] is a join, and so are lines that
    speak of leaving or of a new nick. *)
Theorem stars_always_join :
  (∀ time rest, classify time ("*** " +:+ rest)
                = Ok (Join time ("*** " +:+ rest)))
  ∧ parse_line "*** x has joined" = Some (Ok (Join None "*** x has joined"))
  ∧ parse_line "*** x has left" = Some (Ok (Join None "*** x has left"))
  ∧ parse_line "*** al is now known as bob"
    = Some (Ok (Join None "*** al is now known as bob")).
Proof. repeat split. Qed.

(** C10, as the code has it. A line is a comment only if a closing
    bracket is followed by whitespace: when no [>] of the line has a
    whitespace character
    right after it the line is not a comment, and a line in which the
    bracket that closes [nick] is followed by a non-whitespace
    character is never a comment of that [nick].  The line [<al>hi]
    falls through every test and is classified [Other] with the whole
    line as text; [log2html] hands it to [servermsg], and the registry
    is left as it was, without a colour for [al]. *)
Theorem comment_needs_space :
  (∀ time line,
      (∀ a b, line = a +:+ String ">" b → followed_by_space b = false) →
      ∀ ev, classify time line = Ok ev → what ev ≠ COMMENT)
  ∧ (∀ time nick c rest t text,
        is_space c = false →
        classify time ("<" +:+ nick +:+ String ">" (String c rest))
        ≠ Ok (Comment t nick text))
  ∧ classify None "<al>hi" = Ok (Other None "<al>hi")
  ∧ (∀ title colours charset,
        log2html ["<al>hi"] title colours charset
        = mkRun [Head title charset; Servermsg "&lt;al&gt;hi"; Foot]
            (Ok initial)).
Proof.
  split; [|split; [|split]].
  - intros time line H ev Hev Hc.
    destruct ev; try discriminate.
    apply classify_comment_inv in Hev.
    destruct line as [|c s]; [discriminate|].
    assert (Hs : nick_scan s = None).
    { apply nick_scan_none. intros a b ->.
      apply (H (String c a) b). reflexivity. }
    unfold match_nick in Hev.
    destruct c as [[] [] [] [] [] [] [] []]; congruence.
  - intros time nick c rest t text Hc H.
    apply classify_comment_shape in H. destruct H as (w & Hw & H).
    change ("<" +:+ nick +:+ String ">" (String c rest))
      with (String "<" (nick +:+ String ">" (String c rest))) in H.
    change ("<" +:+ nick +:+ String ">" (String w text))
      with (String "<" (nick +:+ String ">" (String w text))) in H.
    injection H as H. apply append_inv_head in H. congruence.
  - reflexivity.
  - reflexivity.
Qed.

Lemma comment_needs_space_witness :
  what (Other None "<al>hi") ≠ COMMENT
  ∧ classify None "<al>hi" ≠ Ok (Comment None "al" "i").
Proof.
  split.
  - apply (proj1 comment_needs_space None "<al>hi").
    + intros a b H.
      do 7 (destruct a as [|? a];
            [cbv in H; try discriminate H; injection H; intros; subst;
             reflexivity|]).
      cbv in H. discriminate H.
    + reflexivity.
  - apply (proj1 (proj2 comment_needs_space) None "al" "h"%char "i").
    reflexivity.
Defined.

(** C10, as the claim states it, fails: in [<al>x> hi] the bracket after
    [al] is followed by the letter x, which is no whitespace, and yet
    the line is a comment, of the nick [al>x] that ends at the second
    bracket; [log2html] hands it to [nicktext] and stores a colour for
    that nick. *)
Lemma later_bracket_makes_comment :
  is_space "x" = false
  ∧ classify None "<al>x> hi" = Ok (Comment None "al>x" "hi")
  ∧ log2html ["<al>x> hi"] "t" DEFAULT_COLOURS "iso-8859-1"
    = mkRun [Head "t" "iso-8859-1"; Nicktext "al&gt;x" "hi" "#407a40"; Foot]
        (Ok (mkRegistry (<["al&gt;x" := "#407a40"]> ∅) 1 30)).
Proof. repeat split; vm_compute; reflexivity. Qed.

End Classifier.

(** ** The colour chooser *)

Section Chooser.

(** A chooser as [__init__] accepts it: both bounds are bytes, the
    palette is not empty and its components lie between 0 and 1. *)
Definition valid_chooser (self : ColourChooser) : Prop :=
  (0 <= rgbmin self < 256)%Z ∧ (0 <= rgbmax self < 256)%Z
  ∧ rgb self ≠ []
  ∧ Forall (fun '(r, g, b) =>
              (0 <= r <= 1 ∧ 0 <= g <= 1 ∧ 0 <= b <= 1)%Q) (rgb self).

Lemma default_chooser_valid : valid_chooser default_chooser.
Proof.
  unfold valid_chooser, default_chooser; simpl.
  repeat split; try lia; try discriminate.
  repeat constructor; cbv; discriminate.
Qed.

(** A lowercase hexadecimal digit. *)
Definition is_lower_hex (c : ascii) : bool :=
  is_digit c || ((97 <=? code c)%nat && (code c <=? 102)%nat).

Fixpoint all_chars (p : ascii → bool) (s : string) : bool :=
  match s with
  | "" => true
  | String c s' => p c && all_chars p s'
  end.

(** A hash sign followed by exactly six lowercase hexadecimal digits. *)
Definition is_rrggbb (s : string) : bool :=
  match s with
  | String "#" t => (String.length t =? 6)%nat && all_chars is_lower_hex t
  | _ => false
  end.

Definition is_hex_pair (s : string) : bool :=
  (String.length s =? 2)%nat && all_chars is_lower_hex s.

Lemma byte_cases (P : Z → bool) :
  forallb P (map Z.of_nat (seq 0 256)) = true →
  ∀ z, (0 <= z < 256)%Z → P z = true.
Proof.
  intros H z Hz. rewrite forallb_forall in H. apply H.
  apply in_map_iff. exists (Z.to_nat z). split; [lia|].
  apply in_seq. lia.
Qed.

Lemma format_02x_byte (z : Z) :
  (0 <= z < 256)%Z → is_hex_pair (format_02x z) = true.
Proof.
  apply (byte_cases (fun z => is_hex_pair (format_02x z))).
  vm_compute. reflexivity.
Qed.

Lemma is_rrggbb_pairs (a b c : string) :
  is_hex_pair a = true → is_hex_pair b = true → is_hex_pair c = true →
  is_rrggbb ("#" +:+ a +:+ b +:+ c) = true.
Proof.
  unfold is_hex_pair.
  destruct a as [|a1 [|a2 [|]]]; try discriminate.
  destruct b as [|b1 [|b2 [|]]]; try discriminate.
  destruct c as [|c1 [|c2 [|]]]; try discriminate.
  cbn [String.length Nat.eqb andb all_chars].
  intros Ha Hb Hc.
  change (all_chars is_lower_hex
            (String a1 (String a2 (String b1 (String b2
               (String c1 (String c2 "")))))) = true).
  cbn [all_chars].
  repeat match goal with
         | H : _ && _ = true |- _ => apply andb_prop in H; destruct H
         end.
  repeat (apply andb_true_intro; split); assumption.
Qed.

Lemma format_rgb_bytes (r g b : Z) :
  (0 <= r < 256)%Z → (0 <= g < 256)%Z → (0 <= b < 256)%Z →
  is_rrggbb (format_rgb (r, g, b)) = true.
Proof.
  intros Hr Hg Hb. unfold format_rgb.
  apply is_rrggbb_pairs; apply format_02x_byte; assumption.
Qed.

Lemma byte_range_spec (z : Z) : byte_range z = true ↔ (0 <= z < 256)%Z.
Proof. unfold byte_range. lia. Qed.

(** Truncation keeps a rational of the byte range in the byte range. *)
Lemma Qtrunc_byte (x : Q) :
  (0 <= x)%Q → (x < 256)%Q → (0 <= Qtrunc x < 256)%Z.
Proof.
  destruct x as [a d]. unfold Qle, Qlt, Qtrunc; simpl. intros H0 H1.
  assert (Ha : (0 <= a)%Z) by lia.
  rewrite Z.quot_div_nonneg by lia.
  split; [apply Z.div_pos; lia|].
  apply Z.div_lt_upper_bound; lia.
Qed.

(** The share [(n - i) / n] lies between 0 and 1 when [0 <= i <= n]. *)
Lemma share_unit (i n : Z) :
  (0 <= i <= n)%Z → (0 < n)%Z →
  (0 <= inject_Z (n - i) / inject_Z n <= 1)%Q.
Proof.
  intros Hi Hn.
  assert (Hq : (0 < inject_Z n)%Q) by (unfold Qlt; simpl; lia).
  split.
  - apply Qle_shift_div_l; [exact Hq|].
    rewrite Qmult_0_l. unfold Qle; simpl; lia.
  - apply Qle_shift_div_r; [exact Hq|].
    rewrite Qmult_1_l. unfold Qle; simpl; lia.
Qed.

(** A component of the palette times the scale factor stays in the byte
    range when the index lies between 0 and the total. *)
Lemma scaled_byte (lo hi x y : Z) (c : Q) :
  (0 <= lo < 256)%Z → (0 <= hi < 256)%Z → (0 <= c <= 1)%Q →
  (0 <= x <= y)%Z → (0 < y)%Z →
  (0 <= Qtrunc (c * (inject_Z lo
                     + inject_Z (hi - lo) * inject_Z (y - x) / inject_Z y))
   < 256)%Z.
Proof.
  intros Hlo Hhi Hc Hx Hy.
  assert (L0 : (0 <= inject_Z lo)%Q) by (unfold Qle; simpl; lia).
  assert (L1 : (inject_Z lo <= 255)%Q) by (unfold Qle; simpl; lia).
  assert (H0 : (0 <= inject_Z hi)%Q) by (unfold Qle; simpl; lia).
  assert (H1 : (inject_Z hi <= 255)%Q) by (unfold Qle; simpl; lia).
  assert (E : (inject_Z (hi - lo) == inject_Z hi - inject_Z lo)%Q).
  { unfold Z.sub. rewrite inject_Z_plus, inject_Z_opp. reflexivity. }
  pose proof (share_unit x y Hx Hy) as Ht.
  set (t := (inject_Z (y - x) / inject_Z y)%Q) in Ht.
  set (m := (inject_Z lo
             + inject_Z (hi - lo) * inject_Z (y - x) / inject_Z y)%Q).
  assert (Em : (m == inject_Z lo + (inject_Z hi - inject_Z lo) * t)%Q).
  { unfold m, t. rewrite E. unfold Qdiv. ring. }
  assert (Hm : (0 <= m <= 255)%Q) by (split; rewrite Em; nra).
  apply Qtrunc_byte; nra.
Qed.

Lemma Forall_nth_default {A : Type} (P : A → Prop) (l : list A) (d : A)
    (k : nat) :
  Forall P l → P d → P (nth k l d).
Proof.
  intros Hl Hd. revert k.
  induction Hl as [|x l Hx _ IH]; intros [|k]; simpl; auto.
Qed.

(** The channels of a valid chooser are bytes when [0 <= i <= n]. *)
Lemma channels_bytes (self : ColourChooser) (i n : Z) :
  valid_chooser self → (0 <= i <= n)%Z →
  ∀ r g b, channels self i n = (r, g, b) →
           (0 <= r < 256)%Z ∧ (0 <= g < 256)%Z ∧ (0 <= b < 256)%Z.
Proof.
  intros (Hlo & Hhi & _ & Hrgb) Hi r g b. unfold channels.
  set (n' := if (n =? 0)%Z then 1%Z else n).
  assert (Hn : (0 <= i <= n')%Z ∧ (0 < n')%Z).
  { unfold n'. destruct (Z.eqb_spec n 0); lia. }
  destruct Hn as [Hi' Hn'].
  pose proof (Forall_nth_default _ _ (0, 0, 0)%Q
                (Z.to_nat (i mod Z.of_nat (List.length (rgb self)))) Hrgb)
    as Hc.
  destruct (nth _ (rgb self) (0, 0, 0)%Q) as [[cr cg] cb].
  destruct Hc as (Hr & Hg & Hb).
  { repeat split; unfold Qle; simpl; lia. }
  intros [= <- <- <-].
  repeat split; apply scaled_byte; assumption.
Qed.

(** A valid chooser returns for every [0 <= i <= n]. *)
Lemma choose_ok (self : ColourChooser) (i n : Z) :
  valid_chooser self → (0 <= i <= n)%Z →
  ∃ r g b, channels self i n = (r, g, b)
           ∧ ((0 <= r <= 255)%Z ∧ (0 <= g <= 255)%Z ∧ (0 <= b <= 255)%Z)
           ∧ choose self i n = Ok (format_rgb (r, g, b))
           ∧ is_rrggbb (format_rgb (r, g, b)) = true.
Proof.
  intros Hv Hi.
  destruct (channels self i n) as [[r g] b] eqn:E.
  destruct (channels_bytes self i n Hv Hi r g b E) as (Hr & Hg & Hb).
  exists r, g, b. split; [reflexivity|]. split; [lia|].
  split; [|apply format_rgb_bytes; assumption].
  unfold choose. rewrite E.
  destruct Hv as (_ & _ & Hne & _).
  destruct (rgb self) as [|? ?]; [congruence|]. simpl List.length.
  destruct (Z.eqb_spec (Z.of_nat (S (List.length l))) 0); [lia|].
  rewrite (proj2 (byte_range_spec r) Hr), (proj2 (byte_range_spec g) Hg),
    (proj2 (byte_range_spec b) Hb).
  reflexivity.
Qed.

(** Whenever [choose] returns, the asserted channels are bytes and the
    result has the shape [#rrggbb]. *)
Lemma choose_returns_shape (self : ColourChooser) (i n : Z) (s : string) :
  choose self i n = Ok s →
  is_rrggbb s = true
  ∧ ∃ r g b, channels self i n = (r, g, b)
             ∧ (0 <= r <= 255)%Z ∧ (0 <= g <= 255)%Z ∧ (0 <= b <= 255)%Z.
Proof.
  unfold choose.
  destruct (Z.of_nat (List.length (rgb self)) =? 0)%Z; [discriminate|].
  destruct (channels self i n) as [[r g] b].
  destruct (byte_range r) eqn:Hr; [|discriminate].
  destruct (byte_range g) eqn:Hg; [|discriminate].
  destruct (byte_range b) eqn:Hb; [|discriminate].
  apply byte_range_spec in Hr, Hg, Hb.
  intros [= <-]. split; [apply format_rgb_bytes; assumption|].
  exists r, g, b. repeat split; lia.
Qed.

(** C4, as the code has it.  For [0 <= index <= total] and a total
    below 2^53, where every integer that [choose] converts to a float
    is a float, the call [choose(index, total)] of the default chooser
    returns, its three channels lie in [0, 255] and the result is a
    hash sign followed by exactly six lowercase hexadecimal digits.
    The channels are asserted to be bytes, not clamped: every call that
    returns has that shape, and a call whose channels leave the range
    does not return, as [choose(60, 30)] shows. *)
Theorem choose_bounds :
  (∀ i n, (0 <= i <= n)%Z → (n < 2 ^ 53)%Z →
     ∃ r g b, channels default_chooser i n = (r, g, b)
              ∧ ((0 <= r <= 255)%Z ∧ (0 <= g <= 255)%Z ∧ (0 <= b <= 255)%Z)
              ∧ html_rgb i n = Ok (format_rgb (r, g, b))
              ∧ is_rrggbb (format_rgb (r, g, b)) = true)
  ∧ (∀ i n s, html_rgb i n = Ok s → is_rrggbb s = true)
  ∧ html_rgb 60 30 = Raise AssertionError.
Proof.
  split; [|split].
  - intros i n Hi _.
    exact (choose_ok default_chooser i n default_chooser_valid Hi).
  - intros i n s H. exact (proj1 (choose_returns_shape _ _ _ _ H)).
  - vm_compute. reflexivity.
Qed.

Lemma choose_bounds_witness :
  ∃ r g b, channels default_chooser 1 30 = (r, g, b)
           ∧ ((0 <= r <= 255)%Z ∧ (0 <= g <= 255)%Z ∧ (0 <= b <= 255)%Z)
           ∧ html_rgb 1 30 = Ok (format_rgb (r, g, b))
           ∧ is_rrggbb (format_rgb (r, g, b)) = true.
Proof. apply (proj1 choose_bounds 1%Z 30%Z); lia. Defined.

(** C4, as the claim states it, fails: [choose(60, 30)] computes the
    channels (337, 177, 177), the first assertion fails and no colour is
    returned, clamped or not. *)
Lemma choose_not_total :
  channels default_chooser 60 30 = (337, 177, 177)%Z
  ∧ html_rgb 60 30 = Raise AssertionError
  ∧ ¬ ∃ s, html_rgb 60 30 = Ok s.
Proof.
  split; [vm_compute; reflexivity|].
  split; [vm_compute; reflexivity|].
  intros [s H]. vm_compute in H. discriminate H.
Qed.

End Chooser.

(** ** The pipeline *)

Section Pipeline.

Local Arguments linkify : simpl never.
Local Arguments server_text : simpl never.
Local Arguments nick_colour : simpl never.
Local Arguments escape : simpl never.
Local Arguments replace : simpl never.

(** The template of the links parses without error, and each of its two
    escapes stands for the character with code 0. *)
Lemma parse_url_template :
  parse_template (String.length URL_TEMPLATE) 1 URL_TEMPLATE
  = Ok [TLit "<"; TLit "a"; TLit " "; TLit "h"; TLit "r"; TLit "e"; TLit "f";
        TLit "="; TLit "034"; TLit "000"; TLit "034"; TLit ">"; TLit "000";
        TLit "<"; TLit "/"; TLit "a"; TLit ">"].
Proof. vm_compute. reflexivity. Qed.

Lemma linkify_ok (text : string) : ∃ t, linkify text = Ok t.
Proof. unfold linkify. rewrite parse_url_template. simpl. eauto. Qed.

Lemma server_text_ok (colours : Colours) (w : Enum) (text : string) :
  ∃ t, server_text colours w text = Ok t.
Proof.
  unfold server_text. destruct (linkify_ok text) as [t ->]. simpl.
  destruct (colour_map colours w); eauto.
Qed.

(** The registry invariant: the counter is below the estimate, and every
    stored colour has the shape [#rrggbb]. *)
Definition counters_ok (st : Registry) : Prop :=
  (0 <= nickcount st < nickmax st)%Z.

Definition colours_ok (st : Registry) : Prop :=
  ∀ k v, colour_nick st !! k = Some v → is_rrggbb v = true.

Lemma initial_ok : counters_ok initial ∧ colours_ok initial.
Proof.
  split; [unfold counters_ok; simpl; lia|].
  intros k v H. unfold initial in H. simpl in H.
  rewrite lookup_empty in H. discriminate.
Qed.

(** The allocation made for a new nick asks for colour [i] of [n] with
    [1 <= i < n]. *)
Lemma alloc_args_range (st : Registry) :
  counters_ok st →
  (1 <= fst (alloc_args st) < snd (alloc_args st))%Z.
Proof.
  unfold counters_ok, alloc_args. intros H.
  destruct (Z.geb_spec (nickcount st + 1) (nickmax st)); simpl; lia.
Qed.

Lemma alloc_ok (st : Registry) :
  counters_ok st →
  ∃ c, html_rgb (fst (alloc_args st)) (snd (alloc_args st)) = Ok c
       ∧ is_rrggbb c = true.
Proof.
  intros H. pose proof (alloc_args_range st H) as Hr.
  destruct (choose_ok default_chooser (fst (alloc_args st))
              (snd (alloc_args st)) default_chooser_valid)
    as (r & g & b & _ & _ & Hc & Hs); [lia|].
  eauto.
Qed.

Lemma is_rrggbb_nonempty (v : string) : is_rrggbb v = true → v ≠ "".
Proof. intros H ->. discriminate. Qed.

(** The colour lookup always returns from a state that satisfies the
    invariant, and keeps it. *)
Lemma nick_colour_ok (st : Registry) (nick : string) :
  counters_ok st → colours_ok st →
  ∃ st' c, nick_colour st nick = Ok (st', c)
           ∧ counters_ok st' ∧ colours_ok st'
           ∧ colour_nick st' !! nick = Some c.
Proof.
  intros Hc Hm. unfold nick_colour.
  assert (New :
    ∃ st' c,
      (let '(nickcount, nickmax) := alloc_args st in
       let! htmlcolour := html_rgb nickcount nickmax in
       Ok (mkRegistry (<[nick := htmlcolour]> (colour_nick st))
             nickcount nickmax, htmlcolour)) = Ok (st', c)
      ∧ counters_ok st' ∧ colours_ok st'
      ∧ colour_nick st' !! nick = Some c).
  { pose proof (alloc_args_range st Hc) as Hr.
    destruct (alloc_ok st Hc) as (c & Ec & Hs).
    destruct (alloc_args st) as [i n]. simpl in Hr, Ec. rewrite Ec. simpl.
    eexists _, c. split; [reflexivity|].
    split; [unfold counters_ok; simpl; lia|].
    split; [|simpl; apply lookup_insert_eq].
    intros k v. simpl. rewrite lookup_insert.
    destruct (decide (nick = k)); [intros [= <-]; exact Hs | apply Hm]. }
  destruct (colour_nick st !! nick) as [[|x v]|] eqn:E; try exact New.
  exists st, (String x v). auto.
Qed.

(** One step from a good state never raises, and leads to a good state. *)
Lemma step_ok (colours : Colours) (st : Registry) (ev : Event) :
  counters_ok st → colours_ok st →
  ∃ st' c, step colours st ev = Ok (st', c)
           ∧ counters_ok st' ∧ colours_ok st'.
Proof.
  intros Hc Hm. destruct ev as [t n x|t x|t x|t x|t x o n|t x|t x]; cbn.
  - destruct (nick_colour_ok st (escape n) Hc Hm)
      as (st' & c & -> & Hc' & Hm' & _). cbn.
    destruct (linkify_ok (escape x)) as [y ->]. cbn. eauto.
  - destruct (server_text_ok colours ACTION (escape x)) as [y ->]. cbn. eauto.
  - destruct (server_text_ok colours JOIN (escape x)) as [y ->]. cbn. eauto.
  - destruct (server_text_ok colours PART (escape x)) as [y ->]. cbn. eauto.
  - destruct (server_text_ok colours NICKCHANGE (escape x)) as [y ->]. cbn.
    eexists _, _. split; [reflexivity|].
    destruct (colour_nick st !! escape o) as [c|] eqn:E; [|auto].
    split; [exact Hc|]. intros k v. cbn.
    rewrite lookup_delete. destruct (decide (escape o = k)); [discriminate|].
    rewrite lookup_insert.
    destruct (decide (escape n = k)); [intros [= <-]; eauto | apply Hm].
  - destruct (server_text_ok colours SERVER (escape x)) as [y ->]. cbn. eauto.
  - destruct (server_text_ok colours OTHER (escape x)) as [y ->]. cbn. eauto.
Qed.

Lemma run_events_ok (colours : Colours) (evs : list Event) (st : Registry) :
  counters_ok st → colours_ok st →
  ∃ st', outcome (run_events colours st evs) = Ok st'
         ∧ counters_ok st' ∧ colours_ok st'.
Proof.
  revert st. induction evs as [|ev evs IH]; intros st Hc Hm; simpl; [eauto|].
  destruct (step_ok colours st ev Hc Hm) as (st' & c & -> & Hc' & Hm').
  simpl. apply IH; assumption.
Qed.

(** A run over lines ends in a good state or with the [NameError] of the
    classifier. *)
Lemma parse_line_raise (raw : string) (e : Exn) :
  parse_line raw = Some (Raise e) → e = NameError "oldnick".
Proof.
  unfold parse_line. destruct (String.eqb _ ""); [discriminate|].
  assert (G : ∀ t l, classify t l = Raise e → e = NameError "oldnick").
  { intros t l. unfold classify.
    destruct (match_nick l) as [[? ?]|]; [discriminate|].
    repeat match goal with
           | |- context [if ?b then _ else _] => destruct b
           | |- context [match match_nick_change ?l with _ => _ end] =>
               destruct (match_nick_change l) as [[? ?]|]
           end; congruence. }
  destruct (match_time _) as [[t r]|]; intros [= H]; eapply G; eassumption.
Qed.

Lemma run_lines_ok (colours : Colours) (infile : list string) (st : Registry) :
  counters_ok st → colours_ok st →
  (∃ st', outcome (run_lines colours st infile) = Ok st'
          ∧ counters_ok st' ∧ colours_ok st')
  ∨ outcome (run_lines colours st infile) = Raise (NameError "oldnick").
Proof.
  revert st. induction infile as [|raw infile IH]; intros st Hc Hm; simpl;
    [left; eauto|].
  destruct (parse_line raw) as [[ev|e]|] eqn:E.
  - destruct (step_ok colours st ev Hc Hm) as (st' & c & -> & Hc' & Hm').
    simpl. apply IH; assumption.
  - right. simpl. rewrite (parse_line_raise raw e E). reflexivity.
  - apply IH; assumption.
Qed.

(** The registry after the single comment [<al> hi]. *)
Definition al_registry : Registry :=
  mkRegistry (<["al" := "#407a40"]> ∅) 1 30.



(** *** Stability of an assigned colour *)

(** The colours handed to [nicktext], in order. *)
Fixpoint htmlcolours (cs : list Call) : list string :=
  match cs with
  | [] => []
  | Nicktext _ _ c :: cs' => c :: htmlcolours cs'
  | _ :: cs' => htmlcolours cs'
  end.

Lemma nick_colour_keeps (st st1 : Registry) (k nick c c1 : string) :
  colour_nick st !! nick = Some c → c ≠ "" →
  nick_colour st k = Ok (st1, c1) →
  colour_nick st1 !! nick = Some c ∧ (k = nick → c1 = c).
Proof.
  intros Hn Hc. unfold nick_colour.
  assert (New : colour_nick st !! k = None ∨ colour_nick st !! k = Some "" →
    (let '(nickcount, nickmax) := alloc_args st in
     let! htmlcolour := html_rgb nickcount nickmax in
     Ok (mkRegistry (<[k := htmlcolour]> (colour_nick st))
           nickcount nickmax, htmlcolour)) = Ok (st1, c1) →
    colour_nick st1 !! nick = Some c ∧ (k = nick → c1 = c)).
  { intros Hk. destruct (alloc_args st) as [i n].
    destruct (html_rgb i n) as [h|e]; [|discriminate]. cbn.
    intros [= <- <-]. cbn.
    assert (k ≠ nick) by (intros ->; destruct Hk; congruence).
    split; [|congruence]. rewrite lookup_insert_ne; assumption. }
  destruct (colour_nick st !! k) as [[|x v]|] eqn:E; auto.
  intros [= <- <-]. split; [exact Hn|]. intros ->. congruence.
Qed.

Lemma step_keeps (colours : Colours) (st st' : Registry) (ev : Event)
    (call : Call) (nick c : string) :
  colour_nick st !! nick = Some c → c ≠ "" → what ev ≠ NICKCHANGE →
  step colours st ev = Ok (st', call) →
  colour_nick st' !! nick = Some c
  ∧ (∀ t c', call = Nicktext nick t c' → c' = c).
Proof.
  intros Hn Hc Hw.
  destruct ev as [t n x|t x|t x|t x|t x o n|t x|t x]; cbn;
    try (destruct (server_text colours _ (escape x)); cbn;
         intros [= <- <-]; split; [exact Hn | discriminate]).
  - destruct (nick_colour st (escape n)) as [[st1 c1]|] eqn:E;
      [|discriminate]. cbn.
    destruct (linkify (escape x)); [|discriminate]. cbn.
    intros [= <- <-].
    destruct (nick_colour_keeps _ _ _ _ _ _ Hn Hc E) as [H1 H2].
    split; [exact H1|]. intros t' c' [= H3 _ H4]. subst c'. auto.
  - contradiction Hw. reflexivity.
Qed.

Lemma run_events_keeps (colours : Colours) (evs : list Event)
    (st : Registry) (nick c : string) :
  counters_ok st → colours_ok st →
  colour_nick st !! nick = Some c →
  Forall (fun ev => what ev ≠ NICKCHANGE) evs →
  (∀ t c', In (Nicktext nick t c') (calls (run_events colours st evs))
           → c' = c)
  ∧ ∃ st', outcome (run_events colours st evs) = Ok st'
           ∧ colour_nick st' !! nick = Some c.
Proof.
  revert st. induction evs as [|ev evs IH]; intros st Hc Hm Hn Hf; cbn.
  - split; [intros t c' []|eauto].
  - inversion Hf as [|? ? Hw Hf']; subst.
    destruct (step_ok colours st ev Hc Hm) as (st1 & k & E & Hc1 & Hm1).
    rewrite E. cbn.
    destruct (step_keeps colours st st1 ev k nick c Hn
                (is_rrggbb_nonempty _ (Hm _ _ Hn)) Hw E) as [Hn1 Hk].
    destruct (IH st1 Hc1 Hm1 Hn1 Hf') as [IH1 IH2].
    split; [|exact IH2].
    intros t c' [->|Hin]; eauto.
Qed.

Lemma parse_line_never_nickchange (raw : string) (ev : Event) :
  parse_line raw = Some (Ok ev) → what ev ≠ NICKCHANGE.
Proof.
  unfold parse_line. destruct (String.eqb _ ""); [discriminate|].
  destruct (match_time _) as [[t r]|]; intros [= H];
    eapply classify_never_nickchange; eassumption.
Qed.

Lemma run_lines_keeps (colours : Colours) (infile : list string)
    (st : Registry) (nick c : string) :
  counters_ok st → colours_ok st →
  colour_nick st !! nick = Some c →
  ∀ t c', In (Nicktext nick t c') (calls (run_lines colours st infile))
          → c' = c.
Proof.
  revert st. induction infile as [|raw infile IH]; intros st Hc Hm Hn; cbn.
  - intros t c' [].
  - destruct (parse_line raw) as [[ev|e]|] eqn:P; cbn.
    + destruct (step_ok colours st ev Hc Hm) as (st1 & k & E & Hc1 & Hm1).
      rewrite E. cbn.
      destruct (step_keeps colours st st1 ev k nick c Hn
                  (is_rrggbb_nonempty _ (Hm _ _ Hn))
                  (parse_line_never_nickchange raw ev P) E) as [Hn1 Hk].
      intros t c' [->|Hin]; eauto.
    + intros t c' [].
    + apply IH; assumption.
Qed.

(** C5, as the code has it.  Once the registry of a run holds a colour
    for a nick, every later event that is not a nick change leaves that
    colour in place, and every later [nicktext] call for the nick
    receives it, whatever the counters have become; the same holds for
    a run over lines.  The two lines [<al> hi] and [<al> bye] are
    rendered with the same colour. *)
Theorem colour_stable :
  (∀ colours pre evs st nick c,
      outcome (run_events colours initial pre) = Ok st →
      colour_nick st !! nick = Some c →
      Forall (fun ev => what ev ≠ NICKCHANGE) evs →
      (∀ t c', In (Nicktext nick t c') (calls (run_events colours st evs))
               → c' = c)
      ∧ ∃ st', outcome (run_events colours st evs) = Ok st'
               ∧ colour_nick st' !! nick = Some c)
  ∧ (∀ colours pre rest st nick c,
        outcome (run_lines colours initial pre) = Ok st →
        colour_nick st !! nick = Some c →
        ∀ t c', In (Nicktext nick t c') (calls (run_lines colours st rest))
                → c' = c)
  ∧ (∀ title colours charset,
        htmlcolours (calls (log2html ["<al> hi" +:+ nl; "<al> bye" +:+ nl]
                              title colours charset))
        = ["#407a40"; "#407a40"]).
Proof.
  destruct initial_ok as [Hc Hm]. split; [|split].
  - intros colours pre evs st nick c E Hn Hf.
    destruct (run_events_ok colours pre initial Hc Hm) as (st' & E' & H1 & H2).
    assert (st' = st) by congruence. subst st'.
    apply run_events_keeps; assumption.
  - intros colours pre rest st nick c E Hn.
    destruct (run_lines_ok colours pre initial Hc Hm)
      as [(st' & E' & H1 & H2)|E']; [|congruence].
    assert (st' = st) by congruence. subst st'.
    apply run_lines_keeps; assumption.
  - intros title colours charset. vm_compute. reflexivity.
Qed.

Lemma colour_stable_witness :
  ∃ st', outcome (run_events DEFAULT_COLOURS al_registry
                    [Comment None "bob" "hi"; Comment None "al" "bye"])
         = Ok st'
         ∧ colour_nick st' !! "al" = Some "#407a40".
Proof.
  apply (proj2 (proj1 colour_stable DEFAULT_COLOURS [Comment None "al" "hi"]
                  [Comment None "bob" "hi"; Comment None "al" "bye"]
                  al_registry "al" "#407a40"
                  ltac:(vm_compute; reflexivity)
                  ltac:(vm_compute; reflexivity)
                  ltac:(repeat constructor; discriminate))).
Defined.

(** C5, as the claim states it, fails on its own example: the lines
    [<al>hi] and [<al>bye] have no whitespace after the bracket, so
    neither is a comment; both go to [servermsg], no [nicktext] call is
    made and no colour is rendered or stored. *)
Lemma unspaced_lines_have_no_colour :
  log2html ["<al>hi" +:+ nl; "<al>bye" +:+ nl] "t" DEFAULT_COLOURS "iso-8859-1"
  = mkRun [Head "t" "iso-8859-1"; Servermsg "&lt;al&gt;hi";
           Servermsg "&lt;al&gt;bye"; Foot] (Ok initial)
  ∧ htmlcolours (calls (log2html ["<al>hi" +:+ nl; "<al>bye" +:+ nl] "t"
                          DEFAULT_COLOURS "iso-8859-1")) = []
  ∧ ¬ ∃ c, htmlcolours (calls (log2html ["<al>hi" +:+ nl; "<al>bye" +:+ nl]
                                 "t" DEFAULT_COLOURS "iso-8859-1")) = [c; c].
Proof.
  split; [vm_compute; reflexivity|].
  split; [vm_compute; reflexivity|].
  intros [c H]. vm_compute in H. discriminate H.
Qed.

(** *** Determinism *)

(** The nick and the colour of every [nicktext] call, in order. *)
Fixpoint nick_colours (cs : list Call) : list (string * string) :=
  match cs with
  | [] => []
  | Nicktext nick _ c :: cs' => (nick, c) :: nick_colours cs'
  | _ :: cs' => nick_colours cs'
  end.

Lemma nick_colours_app (a b : list Call) :
  nick_colours (a ++ b)%list = (nick_colours a ++ nick_colours b)%list.
Proof.
  induction a as [|[] a IH]; cbn; rewrite ?IH; reflexivity.
Qed.

(** The colours of the kinds play no part in the registry nor in the
    colours of the nicks. *)
Lemma step_any_colours (c1 c2 : Colours) (st : Registry) (ev : Event) :
  match step c1 st ev, step c2 st ev with
  | Ok (st1, k1), Ok (st2, k2) =>
      st1 = st2 ∧ nick_colours [k1] = nick_colours [k2]
  | Raise e1, Raise e2 => e1 = e2
  | _, _ => False
  end.
Proof.
  destruct ev as [t n x|t x|t x|t x|t x o n|t x|t x]; cbn;
    try (destruct (server_text_ok c1 (what (Action t x)) (escape x))
           as [y1 E1];
         destruct (server_text_ok c2 (what (Action t x)) (escape x))
           as [y2 E2]);
    try (destruct (server_text_ok c1 (what (Join t x)) (escape x))
           as [z1 F1];
         destruct (server_text_ok c2 (what (Join t x)) (escape x))
           as [z2 F2]);
    try (destruct (server_text_ok c1 (what (Part t x)) (escape x))
           as [u1 G1];
         destruct (server_text_ok c2 (what (Part t x)) (escape x))
           as [u2 G2]);
    try (destruct (server_text_ok c1 NICKCHANGE (escape x)) as [v1 I1];
         destruct (server_text_ok c2 NICKCHANGE (escape x)) as [v2 I2]);
    try (destruct (server_text_ok c1 (what (Server t x)) (escape x))
           as [w1 J1];
         destruct (server_text_ok c2 (what (Server t x)) (escape x))
           as [w2 J2]);
    try (destruct (server_text_ok c1 (what (Other t x)) (escape x))
           as [o1 K1];
         destruct (server_text_ok c2 (what (Other t x)) (escape x))
           as [o2 K2]);
    cbn in *;
    repeat match goal with
           | H : server_text _ _ _ = Ok _ |- _ => rewrite H; clear H
           end; cbn; try (split; reflexivity).
  destruct (nick_colour st (escape n)) as [[st1 k]|e]; cbn; [|reflexivity].
  destruct (linkify (escape x)); cbn; [split|]; reflexivity.
Qed.

Lemma run_lines_any_colours (c1 c2 : Colours) (infile : list string)
    (st : Registry) :
  outcome (run_lines c1 st infile) = outcome (run_lines c2 st infile)
  ∧ nick_colours (calls (run_lines c1 st infile))
    = nick_colours (calls (run_lines c2 st infile)).
Proof.
  revert st. induction infile as [|raw infile IH]; intros st; cbn;
    [split; reflexivity|].
  destruct (parse_line raw) as [[ev|e]|]; cbn; [|split; reflexivity|apply IH].
  pose proof (step_any_colours c1 c2 st ev) as H.
  destruct (step c1 st ev) as [[st1 k1]|e1], (step c2 st ev) as [[st2 k2]|e2];
    try contradiction.
  - destruct H as [<- Hk]. destruct (IH st1) as [IH1 IH2]. cbn.
    split; [exact IH1|].
    change (nick_colours ([k1] ++ calls (run_lines c1 st1 infile))%list
            = nick_colours ([k2] ++ calls (run_lines c2 st1 infile))%list).
    rewrite !nick_colours_app, Hk, IH2. reflexivity.
  - subst e2. split; reflexivity.
Qed.

(** The colours of the nicks depend on the lines alone: two runs of
    [log2html] over the same lines hand the same colour to every nick,
    call by call, and end in the same way, whatever the title, the
    character set and the colours of the kinds are in each run. *)
Theorem nick_colours_independent (infile : list string)
    (title1 title2 : string) (colours1 colours2 : Colours)
    (charset1 charset2 : string) :
  nick_colours (calls (log2html infile title1 colours1 charset1))
  = nick_colours (calls (log2html infile title2 colours2 charset2))
  ∧ outcome (log2html infile title1 colours1 charset1)
    = outcome (log2html infile title2 colours2 charset2).
Proof.
  unfold log2html.
  destruct (run_lines_any_colours colours1 colours2 infile initial)
    as [Ho Hk].
  destruct (outcome (run_lines colours1 initial infile)) as [st1|e1],
           (outcome (run_lines colours2 initial infile)) as [st2|e2];
    try discriminate; cbn.
  - split; [|exact Ho].
    rewrite !nick_colours_app, Hk. reflexivity.
  - split; [exact Hk | exact Ho].
Qed.

(** *** Renames and links on the program as it is *)

Definition join_coloured (text : string) : string :=
  "<font color=" +:+ dq +:+ "#009900" +:+ dq +:+ ">" +:+ text +:+ "</font>".

(** C2.  The line [*** al is now known as bob] starts with three stars
    and a space, so it is a join and no rename reaches the registry:
    [bob] is given the next new colour, not the colour of [al], and
    [al] keeps its entry, so a later line of [al] shows the first
    colour again.  With dashes in place of the stars the line reaches
    the nick-change branch and the run ends there with [NameError].
    The rename code of [log2html] itself does what the claim says when
    it is handed a nick-change event. *)
Theorem rename_not_propagated :
  log2html ["<al> hi"; "*** al is now known as bob"; "<bob> hi again";
            "<al> back"] "t" DEFAULT_COLOURS "iso-8859-1"
  = mkRun [Head "t" "iso-8859-1";
           Nicktext "al" "hi" "#407a40";
           Servermsg (join_coloured "*** al is now known as bob");
           Nicktext "bob" "hi again" "#42427e";
           Nicktext "al" "back" "#407a40";
           Foot]
      (Ok (mkRegistry (<["bob" := "#42427e"]> (<["al" := "#407a40"]> ∅))
             2 30))
  ∧ log2html ["<al> hi"; "--- al is now known as bob"; "<bob> hi again";
              "<al> back"] "t" DEFAULT_COLOURS "iso-8859-1"
    = mkRun [Head "t" "iso-8859-1"; Nicktext "al" "hi" "#407a40"]
        (Raise (NameError "oldnick"))
  ∧ nick_colours
      (calls (run_events DEFAULT_COLOURS initial
                [Comment None "al" "hi";
                 NickChange None "*** al is now known as bob" "al" "bob";
                 Comment None "bob" "hi again";
                 Comment None "al" "back"]))
    = [("al", "#407a40"); ("bob", "#407a40"); ("al", "#42427e")].
Proof. repeat split; vm_compute; reflexivity. Qed.

Definition nul_link : string :=
  "<a href=" +:+ dq +:+ NUL +:+ dq +:+ ">" +:+ NUL +:+ "</a>".

(** C3.  The replacement template writes the match as a backslash and
    a zero, which the template parser reads as the octal escape of the
    character with code 0 and not as group 0.  Every URL is therefore
    replaced by a link whose target and text are that one character:
    the URL itself is gone from the output. *)
Theorem url_replaced_by_nul :
  linkify "see http://x.org/y now" = Ok ("see " +:+ nul_link +:+ " now")
  ∧ log2html ["<al> see http://x.org/y now"] "t" DEFAULT_COLOURS "iso-8859-1"
    = mkRun [Head "t" "iso-8859-1";
             Nicktext "al" ("see " +:+ nul_link +:+ " now") "#407a40";
             Foot]
        (Ok al_registry)
  ∧ contains "http://x.org/y"
      (render TableStyle
         (calls (log2html ["<al> see http://x.org/y now"] "t"
                   DEFAULT_COLOURS "iso-8859-1"))) = false.
Proof. repeat split; vm_compute; reflexivity. Qed.

End Pipeline.

(** ** The file loop *)

Section Batch.

Variables (progname : string) (style : Style) (colours : Colours).

(** The loop over a list of names in two parts: the second part runs
    only when the first part has finished, from the files it left. *)
Lemma main_loop_app (pre post : list string) (w : World) :
  main_loop progname style colours (pre ++ post)%list w
  = match main_loop progname style colours pre w with
    | (Finished, w') => main_loop progname style colours post w'
    | stop => stop
    end.
Proof.
  revert w. induction pre as [|f pre IH]; intros w; cbn; [reflexivity|].
  destruct (convert progname style colours f w) as [[| | |] w'];
    try reflexivity.
  apply IH.
Qed.

(** A file that cannot be read, or whose output cannot be written,
    ends its own iteration with [sys.exit] and leaves the files as
    they were. *)
Lemma convert_read_failure (filename e : string) (w : World) :
  open_read w filename = inl e →
  convert progname style colours filename w
  = (SystemExit (progname +:+ ": cannot open " +:+ filename
                   +:+ " for reading: " +:+ e), w).
Proof. intros H. unfold convert. rewrite H. reflexivity. Qed.

Lemma convert_write_failure (filename data e : string) (w : World) :
  open_read w filename = inr data →
  open_write w (filename +:+ ".html") = inl e →
  convert progname style colours filename w
  = (SystemExit (progname +:+ ": cannot open " +:+ (filename +:+ ".html")
                   +:+ " for writing: " +:+ e), w).
Proof. intros H1 H2. unfold convert. rewrite H1, H2. reflexivity. Qed.

End Batch.

(** A directory with one log in it. *)
Definition one_log : World :=
  mkWorld (<["a.log" := "<al> hi" +:+ nl]> ∅) ∅ ∅.

(** The same directory where [b.log.html] is a directory, so that it
    cannot be opened for writing. *)
Definition blocked_output : World :=
  mkWorld (<["b.log" := "<bob> hi" +:+ nl]> (<["a.log" := "<al> hi" +:+ nl]> ∅))
    ∅ (<["b.log.html" := "[Errno 21] Is a directory: 'b.log.html'"]> ∅).

(** C8.  When the files before [bad] have been converted and [bad]
    cannot be opened for reading, or its output cannot be opened for
    writing, the whole run ends there with [sys.exit] and a message that
    names the program, the file and the cause.  The files are as the
    earlier conversions left them: nothing is written for [bad], and the
    names after it are never opened, whatever they are. *)
Theorem batch_stops_at_first_failure (progname : string) (style : Style)
    (colours : Colours) (pre post : list string) (bad : string)
    (w w1 : World) :
  main_loop progname style colours pre w = (Finished, w1) →
  (∀ e, open_read w1 bad = inl e →
        main_loop progname style colours (pre ++ bad :: post)%list w
        = (SystemExit (progname +:+ ": cannot open " +:+ bad
                         +:+ " for reading: " +:+ e), w1))
  ∧ (∀ data e, open_read w1 bad = inr data →
               open_write w1 (bad +:+ ".html") = inl e →
               main_loop progname style colours (pre ++ bad :: post)%list w
               = (SystemExit (progname +:+ ": cannot open "
                                +:+ (bad +:+ ".html")
                                +:+ " for writing: " +:+ e), w1)).
Proof.
  intros Hpre. split.
  - intros e He. rewrite main_loop_app, Hpre. cbn.
    rewrite (convert_read_failure _ _ _ _ _ _ He). reflexivity.
  - intros data e Hd He. rewrite main_loop_app, Hpre. cbn.
    rewrite (convert_write_failure _ _ _ _ _ _ _ Hd He). reflexivity.
Qed.

Lemma batch_stops_at_first_failure_witness :
  main_loop "irclog2html.py" TableStyle DEFAULT_COLOURS
    ["a.log"; "b.log"; "c.log"] one_log
  = (SystemExit ("irclog2html.py: cannot open b.log for reading: "
                 +:+ "[Errno 2] No such file or directory: 'b.log'"),
     snd (main_loop "irclog2html.py" TableStyle DEFAULT_COLOURS ["a.log"]
            one_log))
  ∧ main_loop "irclog2html.py" TableStyle DEFAULT_COLOURS
      ["a.log"; "b.log"; "c.log"] blocked_output
    = (SystemExit ("irclog2html.py: cannot open b.log.html for writing: "
                   +:+ "[Errno 21] Is a directory: 'b.log.html'"),
       snd (main_loop "irclog2html.py" TableStyle DEFAULT_COLOURS ["a.log"]
              blocked_output)).
Proof.
  split.
  - apply (proj1 (batch_stops_at_first_failure "irclog2html.py" TableStyle
                    DEFAULT_COLOURS ["a.log"] ["c.log"] "b.log" one_log
                    (snd (main_loop "irclog2html.py" TableStyle
                            DEFAULT_COLOURS ["a.log"] one_log))
                    ltac:(vm_compute; reflexivity))
             "[Errno 2] No such file or directory: 'b.log'").
    vm_compute. reflexivity.
  - apply (proj2 (batch_stops_at_first_failure "irclog2html.py" TableStyle
                    DEFAULT_COLOURS ["a.log"] ["c.log"] "b.log" blocked_output
                    (snd (main_loop "irclog2html.py" TableStyle
                            DEFAULT_COLOURS ["a.log"] blocked_output))
                    ltac:(vm_compute; reflexivity))
             ("<bob> hi" +:+ nl)
             "[Errno 21] Is a directory: 'b.log.html'").
    + vm_compute. reflexivity.
    + vm_compute. reflexivity.
Defined.

(** With [b.log] missing and [a.log] after it on the command line, the
    run ends at [b.log]: [a.log] is not converted, no [a.log.html]
    exists afterwards, although [a.log] alone converts well. *)
Lemma later_files_not_converted :
  main "irclog2html.py" "table" DEFAULT_COLOURS ["b.log"; "a.log"] one_log
  = (SystemExit ("irclog2html.py: cannot open b.log for reading: "
                 +:+ "[Errno 2] No such file or directory: 'b.log'"),
     one_log)
  ∧ files (snd (main "irclog2html.py" "table" DEFAULT_COLOURS
                  ["b.log"; "a.log"] one_log)) !! "a.log.html" = None
  ∧ fst (main "irclog2html.py" "table" DEFAULT_COLOURS ["a.log"] one_log)
    = Finished
  ∧ files (snd (main "irclog2html.py" "table" DEFAULT_COLOURS ["a.log"]
                  one_log)) !! "a.log.html"
    = Some (render TableStyle
              (calls (log2html ["<al> hi" +:+ nl] "a.log" DEFAULT_COLOURS
                        "iso-8859-1"))).
Proof. repeat split; vm_compute; reflexivity. Qed.

(** * Further properties of the program *)

(** ** Strings *)

Lemma append_assoc (a b c : string) : (a +:+ b) +:+ c = a +:+ (b +:+ c).
Proof.
  induction a as [|x a IH]; [reflexivity|].
  rewrite !append_cons, IH. reflexivity.
Qed.

Lemma append_nil_r (a : string) : a +:+ "" = a.
Proof.
  induction a as [|x a IH]; [reflexivity|].
  rewrite append_cons, IH. reflexivity.
Qed.

Lemma all_chars_app (p : ascii → bool) (a b : string) :
  all_chars p (a +:+ b) = all_chars p a && all_chars p b.
Proof.
  induction a as [|x a IH]; [reflexivity|].
  rewrite append_cons. cbn. rewrite IH. apply andb_assoc.
Qed.

Lemma filter_app (p : ascii → bool) (a b : string) :
  filter p (a +:+ b) = filter p a +:+ filter p b.
Proof.
  induction a as [|x a IH]; [reflexivity|].
  rewrite append_cons. cbn. rewrite IH.
  destruct (p x); reflexivity.
Qed.

(** Replacing a single character works character by character. *)
Lemma replace_char_cons (a c : ascii) (new s : string) :
  replace (String a "") new (String c s)
  = (if Ascii.eqb a c then new else String c "")
    +:+ replace (String a "") new s.
Proof.
  unfold replace. cbn [replace_from is_prefix String.length Nat.sub].
  rewrite andb_true_r. destruct (Ascii.eqb a c); reflexivity.
Qed.

Lemma replace_char_app (a : ascii) (new x y : string) :
  replace (String a "") new (x +:+ y)
  = replace (String a "") new x +:+ replace (String a "") new y.
Proof.
  induction x as [|c x IH]; [reflexivity|].
  rewrite append_cons, !replace_char_cons, IH, append_assoc. reflexivity.
Qed.

(** ** [escape] *)

(** What [escape] makes of a single character. *)
Definition escape_char (c : ascii) : string :=
  if Ascii.eqb c "&" then "&amp;"
  else if Ascii.eqb c "<" then "&lt;"
  else if Ascii.eqb c ">" then "&gt;"
  else if (31 <? code c)%nat then String c "" else "".

Lemma escape_app (a b : string) : escape (a +:+ b) = escape a +:+ escape b.
Proof.
  unfold escape. rewrite !replace_char_app, filter_app. reflexivity.
Qed.

Lemma escape_single (c : ascii) : escape (String c "") = escape_char c.
Proof.
  destruct c as [[] [] [] [] [] [] [] []]; vm_compute; reflexivity.
Qed.

Lemma escape_cons (c : ascii) (s : string) :
  escape (String c s) = escape_char c +:+ escape s.
Proof.
  change (String c s) with (String c "" +:+ s).
  rewrite escape_app, escape_single. reflexivity.
Qed.

(** A character that may appear in HTML text as it is: not a pointy
    bracket and not a control character. *)
Definition html_safe (c : ascii) : bool :=
  negb (Ascii.eqb c "<") && negb (Ascii.eqb c ">") && (31 <? code c)%nat.

(** A character that [escape] leaves alone. *)
Definition plain (c : ascii) : bool :=
  html_safe c && negb (Ascii.eqb c "&").

Lemma escape_char_safe (c : ascii) : all_chars html_safe (escape_char c) = true.
Proof.
  destruct c as [[] [] [] [] [] [] [] []]; vm_compute; reflexivity.
Qed.

Lemma escape_char_plain (c : ascii) :
  plain c = true → escape_char c = String c "".
Proof.
  destruct c as [[] [] [] [] [] [] [] []]; vm_compute;
    first [reflexivity | discriminate].
Qed.

(** [escape] works piece by piece: the escaped form of a concatenation
    is the concatenation of the escaped forms, so escaping the nick and
    the text of a line apart gives what escaping them together would. *)
Theorem escape_concat (a b : string) :
  escape (a +:+ b) = escape a +:+ escape b.
Proof. apply escape_app. Qed.

Lemma escape_safe (s : string) : all_chars html_safe (escape s) = true.
Proof.
  induction s as [|c s IH]; [reflexivity|].
  rewrite escape_cons, all_chars_app, escape_char_safe, IH. reflexivity.
Qed.

(** The output of [escape] holds no [<], no [>] and no control
    character (code below 32), whatever the input. *)
Theorem escape_output_safe (s : string) :
  all_chars html_safe (escape s) = true.
Proof. exact (escape_safe s). Qed.

(** A string without ampersand, pointy bracket or control character is
    returned by [escape] as it is. *)
Theorem escape_plain (s : string) :
  all_chars plain s = true → escape s = s.
Proof.
  induction s as [|c s IH]; [reflexivity|].
  cbn [all_chars]. intros H. apply andb_prop in H as [Hc Hs].
  rewrite escape_cons, (escape_char_plain c Hc), (IH Hs). reflexivity.
Qed.

Lemma escape_plain_witness : escape "hello world" = "hello world".
Proof. apply (escape_plain "hello world"). reflexivity. Defined.

Definition entity_tail (b : string) : bool :=
  is_prefix "amp;" b || is_prefix "lt;" b || is_prefix "gt;" b.

(** Every ampersand in the output of [escape] starts one of the three
    entities [&amp;], [&lt;] and [&gt;]: an ampersand of the input is
    itself escaped, also when it already started an entity. *)
Theorem escape_ampersand_entity (s a b : string) :
  escape s = a +:+ String "&" b → entity_tail b = true.
Proof.
  revert a. induction s as [|c s IH]; intros a H.
  - destruct a; discriminate H.
  - rewrite escape_cons in H. unfold escape_char in H.
    destruct (Ascii.eqb c "&") eqn:E1;
      [|destruct (Ascii.eqb c "<") eqn:E2;
        [|destruct (Ascii.eqb c ">") eqn:E3;
          [|destruct (31 <? code c)%nat eqn:E4]]].
    + destruct a as [|x0 [|x1 [|x2 [|x3 [|x4 a]]]]];
        cbv [String.append] in H; try (injection H; intros; subst);
        try discriminate; try reflexivity.
      apply (IH a). cbv [String.append]. assumption.
    + destruct a as [|x0 [|x1 [|x2 [|x3 a]]]];
        cbv [String.append] in H; try (injection H; intros; subst);
        try discriminate; try reflexivity.
      apply (IH a). cbv [String.append]. assumption.
    + destruct a as [|x0 [|x1 [|x2 [|x3 a]]]];
        cbv [String.append] in H; try (injection H; intros; subst);
        try discriminate; try reflexivity.
      apply (IH a). cbv [String.append]. assumption.
    + destruct a as [|x0 a]; cbv [String.append] in H.
      * injection H as Hc _. subst c. discriminate E1.
      * injection H as _ H. apply (IH a). cbv [String.append]. exact H.
    + apply (IH a). exact H.
Qed.

Lemma escape_ampersand_entity_witness : entity_tail "amp;lt; b" = true.
Proof. apply (escape_ampersand_entity "a &lt; b" "a "). reflexivity. Defined.

(** ** The parser: line endings and blank lines *)

Definition is_crlf (c : ascii) : bool := Ascii.eqb c CR || Ascii.eqb c LF.

Lemma rstrip_crlf_cons (c : ascii) (s : string) :
  rstrip_crlf (String c s)
  = if is_crlf c && String.eqb (rstrip_crlf s) "" then ""
    else String c (rstrip_crlf s).
Proof. reflexivity. Qed.

Lemma rstrip_crlf_empty (s : string) :
  rstrip_crlf s = "" ↔ all_chars is_crlf s = true.
Proof.
  induction s as [|c s IH]; [cbn; tauto|].
  rewrite rstrip_crlf_cons. cbn [all_chars].
  destruct (is_crlf c); cbn [andb].
  - destruct (String.eqb (rstrip_crlf s) "") eqn:E.
    + apply String.eqb_eq in E. tauto.
    + split; [discriminate|]. intros H. apply IH in H.
      rewrite H in E. discriminate.
  - split; discriminate.
Qed.

Lemma rstrip_crlf_app (s t : string) :
  all_chars is_crlf t = true → rstrip_crlf (s +:+ t) = rstrip_crlf s.
Proof.
  intros H. induction s as [|c s IH].
  - apply rstrip_crlf_empty. exact H.
  - rewrite append_cons, !rstrip_crlf_cons, IH. reflexivity.
Qed.

Lemma parse_line_blank (raw : string) :
  parse_line raw = None ↔ all_chars is_crlf raw = true.
Proof.
  unfold parse_line. rewrite <- rstrip_crlf_empty.
  destruct (String.eqb (rstrip_crlf raw) "") eqn:E.
  - apply String.eqb_eq in E. tauto.
  - apply String.eqb_neq in E.
    destruct (match_time (rstrip_crlf raw)) as [[t r]|];
      split; intros; try discriminate; contradiction.
Qed.

(** The parser skips a line exactly when it consists of carriage
    returns and line feeds only (the empty line included); every other
    line yields an event or raises. *)
Theorem blank_lines_skipped (raw : string) :
  parse_line raw = None ↔ all_chars is_crlf raw = true.
Proof. exact (parse_line_blank raw). Qed.

(** Carriage returns and line feeds at the end of a line play no part
    in its parsing: a line ending in LF, in CR LF or in none of them
    gives the same event. *)
Theorem line_ending_ignored (raw eol : string) :
  all_chars is_crlf eol = true →
  parse_line (raw +:+ eol) = parse_line raw.
Proof.
  intros H. unfold parse_line. rewrite (rstrip_crlf_app raw eol H).
  reflexivity.
Qed.

Lemma line_ending_ignored_witness :
  parse_line ("<al> hi" +:+ String CR (String LF "")) = parse_line "<al> hi".
Proof.
  apply (line_ending_ignored "<al> hi" (String CR (String LF ""))).
  reflexivity.
Defined.

(** ** The parser: what each kind of event says about its line *)

Lemma after_prefix (p s r : string) : after p s = Some r → is_prefix p s = true.
Proof. unfold after. destruct (is_prefix p s); [reflexivity | discriminate]. Qed.

Lemma contains_cons (p : string) (c : ascii) (s : string) :
  contains p s = true → contains p (String c s) = true.
Proof.
  intros H. cbn [contains]. rewrite H. apply orb_true_r.
Qed.

Lemma contains_prefix (p s : string) :
  is_prefix p s = true → contains p s = true.
Proof. intros H. destruct s; cbn [contains]; rewrite H; reflexivity. Qed.

Definition rename_phrase (s : string) : bool :=
  contains " are now known as " s || contains " is now known as " s.

Lemma nick_change_scan_eq (s : string) :
  nick_change_scan s
  = match match after " are now known as " s with
          | Some r => Some r
          | None => after " is now known as " s
          end with
    | Some r => Some ("", fst (span is_dot r))
    | None =>
        match s with
        | "" => None
        | String c s' =>
            if is_dot c then
              match nick_change_scan s' with
              | Some (a, b) => Some (String c a, b)
              | None => None
              end
            else None
        end
    end.
Proof. destruct s; reflexivity. Qed.

Lemma nick_change_scan_phrase (s a b : string) :
  nick_change_scan s = Some (a, b) → rename_phrase s = true.
Proof.
  revert a b. induction s as [|c s IH]; intros a b; rewrite nick_change_scan_eq.
  - cbn. discriminate.
  - unfold rename_phrase.
    destruct (after " are now known as " (String c s)) as [r|] eqn:E1.
    { intros _. rewrite (contains_prefix _ _ (after_prefix _ _ _ E1)).
      reflexivity. }
    destruct (after " is now known as " (String c s)) as [r|] eqn:E2.
    { intros _. rewrite (contains_prefix _ _ (after_prefix _ _ _ E2)).
      apply orb_true_r. }
    destruct (is_dot c); [|discriminate].
    destruct (nick_change_scan s) as [[a0 b0]|]; [|discriminate].
    intros _. specialize (IH a0 b0 eq_refl). unfold rename_phrase in IH.
    apply orb_prop in IH as [H|H].
    + rewrite (contains_cons _ c _ H). reflexivity.
    + rewrite (contains_cons _ c _ H). apply orb_true_r.
Qed.

Lemma nick_change_scan_found (old new : string) :
  all_chars is_dot old = true →
  (∃ a b, nick_change_scan (old +:+ " is now known as " +:+ new) = Some (a, b))
  ∧ (∃ a b,
        nick_change_scan (old +:+ " are now known as " +:+ new) = Some (a, b)).
Proof.
  induction old as [|c old IH]; intros H.
  - split; eexists _, _; reflexivity.
  - cbn [all_chars] in H. apply andb_prop in H as [Hc Ho].
    destruct (IH Ho) as [(a1 & b1 & E1) (a2 & b2 & E2)].
    split; rewrite append_cons, nick_change_scan_eq;
      match goal with
      | |- context [match ?h with Some r => Some (_, _) | None => _ end] =>
          destruct h
      end; eauto; rewrite Hc, ?E1, ?E2; eauto.
Qed.

(** The classifier fails on rename lines and nowhere else.  When it
    raises, the exception is the [NameError] of the nick-change branch,
    the line starts with three dashes and a space and holds one of the
    two rename phrases.  And every line [--- old is now known as new]
    or [--- old are now known as new], with no line feed in [old],
    makes it raise. *)
Theorem classify_fails_on_renames_only :
  (∀ time line e,
      classify time line = Raise e →
      e = NameError "oldnick" ∧ startswith line "--- " = true
      ∧ rename_phrase line = true)
  ∧ (∀ time old new,
        all_chars is_dot old = true →
        classify time ("--- " +:+ old +:+ " is now known as " +:+ new)
        = Raise (NameError "oldnick")
        ∧ classify time ("--- " +:+ old +:+ " are now known as " +:+ new)
          = Raise (NameError "oldnick")).
Proof.
  split.
  - intros time line e. unfold classify, startswith.
    destruct (match_nick line) as [[n x]|]; [discriminate|].
    destruct (is_prefix "* " line); [discriminate|].
    destruct (is_prefix "*** " line) eqn:E3; [discriminate|].
    cbn [orb].
    destruct (is_prefix "--> " line && contains "joined" line);
      [discriminate|].
    destruct (is_prefix "--> " line
              && (contains "left" line || contains "quit" line));
      [discriminate|].
    unfold match_nick_change, after. rewrite E3.
    destruct (is_prefix "--- " line) eqn:E4.
    + destruct (nick_change_scan (drop (String.length "--- ") line))
        as [[a b]|] eqn:E; [|discriminate].
      intros [= <-]. split; [reflexivity|]. split; [reflexivity|].
      apply nick_change_scan_phrase in E.
      destruct line as [|c0 [|c1 [|c2 [|c3 r]]]];
        try (cbn [is_prefix] in E4; rewrite ?andb_false_r in E4;
             discriminate E4).
      cbn [String.length drop] in E. unfold rename_phrase in *.
      apply orb_prop in E as [H|H].
      * rewrite (contains_cons _ c0 _ (contains_cons _ c1 _
                   (contains_cons _ c2 _ (contains_cons _ c3 _ H)))).
        reflexivity.
      * rewrite (contains_cons _ c0 _ (contains_cons _ c1 _
                   (contains_cons _ c2 _ (contains_cons _ c3 _ H)))).
        apply orb_true_r.
    + discriminate.
  - intros time old new H.
    destruct (nick_change_scan_found old new H)
      as [(a1 & b1 & E1) (a2 & b2 & E2)].
    split.
    + change ("--- " +:+ old +:+ " is now known as " +:+ new)
        with (String "-" (String "-" (String "-" (String " "
                (old +:+ " is now known as " +:+ new))))).
      unfold classify, startswith, match_nick_change, after.
      cbn [match_nick is_prefix Ascii.eqb Bool.eqb andb orb String.length
           drop].
      rewrite E1. reflexivity.
    + change ("--- " +:+ old +:+ " are now known as " +:+ new)
        with (String "-" (String "-" (String "-" (String " "
                (old +:+ " are now known as " +:+ new))))).
      unfold classify, startswith, match_nick_change, after.
      cbn [match_nick is_prefix Ascii.eqb Bool.eqb andb orb String.length
           drop].
      rewrite E2. reflexivity.
Qed.

Lemma classify_fails_on_renames_only_witness :
  classify (Some "12:30") "--- al and bob are now known as x"
  = Raise (NameError "oldnick").
Proof.
  apply (proj2 (proj2 classify_fails_on_renames_only (Some "12:30")
                  "al and bob" "x" ltac:(reflexivity))).
Defined.

(** Each kind of event tells how its line begins.  A part is yielded
    only for a line with the arrow prefix that does not speak of
    joining, and a server message only for a line with three dashes:
    the tests of the part and server branches for three stars never
    decide, because the join branch has taken those lines.  No line is
    a nick change. *)
Theorem kinds_by_prefix (time : option string) (line : string) (ev : Event) :
  classify time line = Ok ev →
  match what ev with
  | COMMENT => startswith line "<" = true
  | ACTION => startswith line "* " = true
  | JOIN =>
      startswith line "*** " = true
      ∨ (startswith line "--> " = true ∧ contains "joined" line = true)
  | PART =>
      startswith line "--> " = true ∧ contains "joined" line = false
      ∧ (contains "left" line || contains "quit" line) = true
  | NICKCHANGE => False
  | SERVER => startswith line "--- " = true
  | OTHER =>
      startswith line "* " = false ∧ startswith line "*** " = false
      ∧ startswith line "--- " = false
  end.
Proof.
  intros H. destruct (what ev) eqn:W.
  - destruct ev; try discriminate W.
    apply classify_comment_shape in H. destruct H as (w & _ & ->).
    reflexivity.
  - revert H. unfold classify, startswith.
    destruct (match_nick line) as [[n x]|]; [intros [= <-]; discriminate W|].
    destruct (is_prefix "* " line); [reflexivity|].
    destruct (is_prefix "*** " line || is_prefix "--> " line
                                        && contains "joined" line);
      [intros [= <-]; discriminate W|].
    destruct (is_prefix "*** " line
              || is_prefix "--> " line
                 && (contains "left" line || contains "quit" line));
      [intros [= <-]; discriminate W|].
    destruct (match_nick_change line) as [[? ?]|]; [discriminate|].
    destruct (is_prefix "*** " line || is_prefix "--- " line);
      intros [= <-]; discriminate W.
  - revert H. unfold classify, startswith.
    destruct (match_nick line) as [[n x]|]; [intros [= <-]; discriminate W|].
    destruct (is_prefix "* " line); [intros [= <-]; discriminate W|].
    destruct (is_prefix "*** " line); [left; reflexivity|]. cbn [orb].
    destruct (is_prefix "--> " line); cbn [andb].
    + destruct (contains "joined" line); [right; split; reflexivity|].
      destruct (contains "left" line || contains "quit" line);
        [intros [= <-]; discriminate W|].
      destruct (match_nick_change line) as [[? ?]|]; [discriminate|].
      destruct (is_prefix "--- " line); intros [= <-]; discriminate W.
    + destruct (match_nick_change line) as [[? ?]|]; [discriminate|].
      destruct (is_prefix "--- " line); intros [= <-]; discriminate W.
  - revert H. unfold classify, startswith.
    destruct (match_nick line) as [[n x]|]; [intros [= <-]; discriminate W|].
    destruct (is_prefix "* " line); [intros [= <-]; discriminate W|].
    destruct (is_prefix "*** " line); [intros [= <-]; discriminate W|].
    cbn [orb].
    destruct (is_prefix "--> " line); cbn [andb].
    + destruct (contains "joined" line); [intros [= <-]; discriminate W|].
      destruct (contains "left" line || contains "quit" line);
        [repeat split|].
      destruct (match_nick_change line) as [[? ?]|]; [discriminate|].
      destruct (is_prefix "--- " line); intros [= <-]; discriminate W.
    + destruct (match_nick_change line) as [[? ?]|]; [discriminate|].
      destruct (is_prefix "--- " line); intros [= <-]; discriminate W.
  - exact (classify_never_nickchange time line ev H W).
  - revert H. unfold classify, startswith.
    destruct (match_nick line) as [[n x]|]; [intros [= <-]; discriminate W|].
    destruct (is_prefix "* " line); [intros [= <-]; discriminate W|].
    destruct (is_prefix "*** " line); [intros [= <-]; discriminate W|].
    cbn [orb].
    destruct (is_prefix "--> " line && contains "joined" line);
      [intros [= <-]; discriminate W|].
    destruct (is_prefix "--> " line
              && (contains "left" line || contains "quit" line));
      [intros [= <-]; discriminate W|].
    destruct (match_nick_change line) as [[? ?]|]; [discriminate|].
    destruct (is_prefix "--- " line); [reflexivity|].
    intros [= <-]; discriminate W.
  - revert H. unfold classify, startswith.
    destruct (match_nick line) as [[n x]|]; [intros [= <-]; discriminate W|].
    destruct (is_prefix "* " line); [intros [= <-]; discriminate W|].
    destruct (is_prefix "*** " line); [intros [= <-]; discriminate W|].
    cbn [orb].
    destruct (is_prefix "--> " line && contains "joined" line);
      [intros [= <-]; discriminate W|].
    destruct (is_prefix "--> " line
              && (contains "left" line || contains "quit" line));
      [intros [= <-]; discriminate W|].
    destruct (match_nick_change line) as [[? ?]|]; [discriminate|].
    destruct (is_prefix "--- " line); [intros [= <-]; discriminate W|].
    repeat split.
Qed.

Lemma kinds_by_prefix_witness :
  startswith "--> al has left" "--> " = true
  ∧ contains "joined" "--> al has left" = false
  ∧ (contains "left" "--> al has left" || contains "quit" "--> al has left")
    = true.
Proof.
  apply (kinds_by_prefix None "--> al has left"
           (Part None "--> al has left")).
  reflexivity.
Defined.

(** ** The parser: comments *)

(** No closing bracket inside the text is followed by whitespace. *)
Fixpoint no_close (s : string) : bool :=
  match s with
  | "" => true
  | String c s' =>
      negb (Ascii.eqb c ">" && followed_by_space s') && no_close s'
  end.

Lemma nick_scan_cons (c : ascii) (s : string) :
  nick_scan (String c s)
  = if Ascii.eqb c ">" && followed_by_space s then Some ("", drop 1 s)
    else if is_dot c then
           match nick_scan s with
           | Some (n, r) => Some (String c n, r)
           | None => None
           end
         else None.
Proof.
  cbn [nick_scan]. destruct (Ascii.eqb c ">"); [|reflexivity].
  destruct s as [|w r]; [reflexivity|]. cbn [followed_by_space andb drop].
  destruct (is_space w); reflexivity.
Qed.

Lemma followed_by_space_close (n x : string) :
  followed_by_space (n +:+ String ">" x) = followed_by_space n.
Proof. destruct n; reflexivity. Qed.

Lemma nick_scan_complete (nick text : string) (w : ascii) :
  all_chars is_dot nick = true → no_close nick = true → is_space w = true →
  nick_scan (nick +:+ String ">" (String w text)) = Some (nick, text).
Proof.
  intros Hd Hn Hw. induction nick as [|c nick IH].
  - change ("" +:+ String ">" (String w text)) with (String ">" (String w text)).
    rewrite nick_scan_cons. cbn [followed_by_space]. rewrite Hw. reflexivity.
  - cbn [all_chars] in Hd. apply andb_prop in Hd as [Hc Hd].
    cbn [no_close] in Hn. apply andb_prop in Hn as [Hx Hn].
    rewrite append_cons, nick_scan_cons, followed_by_space_close.
    apply negb_true_iff in Hx. rewrite Hx, Hc, (IH Hd Hn). reflexivity.
Qed.

Lemma nick_scan_lazy (s n r : string) :
  nick_scan s = Some (n, r) →
  all_chars is_dot n = true ∧ no_close n = true.
Proof.
  revert n r. induction s as [|c s IH]; intros n r; [discriminate|].
  rewrite nick_scan_cons.
  destruct (Ascii.eqb c ">" && followed_by_space s) eqn:E.
  - intros [= <- _]. split; reflexivity.
  - destruct (is_dot c) eqn:Hc; [|discriminate].
    destruct (nick_scan s) as [[n0 r0]|] eqn:Es; [|discriminate].
    intros [= <- <-]. destruct (IH n0 r0 eq_refl) as [Hd Hn].
    apply nick_scan_sound in Es. destruct Es as (w & _ & ->).
    rewrite followed_by_space_close in E.
    cbn [all_chars no_close]. rewrite Hc, Hd, E, Hn. split; reflexivity.
Qed.

(** A line is a comment of [nick] with [text] exactly when it is
    [<nick>], one whitespace character and [text], where [nick] holds
    no line feed and none of its closing brackets is followed by
    whitespace (the nick is the shortest that fits).  The whitespace
    character is dropped and the timestamp is handed on as it came. *)
Theorem comment_iff (time t : option string) (line nick text : string) :
  classify time line = Ok (Comment t nick text)
  ↔ t = time ∧ all_chars is_dot nick = true ∧ no_close nick = true
    ∧ ∃ w, is_space w = true
           ∧ line = "<" +:+ nick +:+ String ">" (String w text).
Proof.
  split.
  - intros H. pose proof (classify_comment_inv _ _ _ _ _ H) as Hm.
    pose proof (classify_comment_shape _ _ _ _ _ H) as Hs.
    unfold classify in H. rewrite Hm in H. injection H as <-.
    destruct Hs as (w & Hw & ->).
    change (match_nick ("<" +:+ nick +:+ String ">" (String w text)))
      with (nick_scan (nick +:+ String ">" (String w text))) in Hm.
    destruct (nick_scan_lazy _ _ _ Hm) as [Hd Hn]. eauto 6.
  - intros (-> & Hd & Hn & w & Hw & ->). unfold classify.
    change (match_nick ("<" +:+ nick +:+ String ">" (String w text)))
      with (nick_scan (nick +:+ String ">" (String w text))).
    rewrite (nick_scan_complete nick text w Hd Hn Hw). reflexivity.
Qed.

Lemma comment_iff_witness :
  classify None "<a> b> c" = Ok (Comment None "a" "b> c").
Proof.
  apply (proj2 (comment_iff None None "<a> b> c" "a" "b> c")).
  repeat split. exists " "%char. split; reflexivity.
Defined.

(** ** The parser: timestamps *)

(** [shape pat s]: [s] has the length of [pat], a digit wherever [pat]
    has the letter d and the character of [pat] everywhere else. *)
Fixpoint shape (pat s : string) : bool :=
  match pat, s with
  | "", "" => true
  | String p pat', String c s' =>
      (if Ascii.eqb p "d" then is_digit c else Ascii.eqb p c) && shape pat' s'
  | _, _ => false
  end.

(** The four forms of group 1 of [TIME_REGEXP]. *)
Definition time_shape (t : string) : bool :=
  shape "dd:dd" t || shape "dd:dd:dd" t
  || shape "dddd-dd-ddTdd:dd" t || shape "dddd-dd-ddTdd:dd:dd" t.

(** What lies between group 1 and the rest of the line: an optional
    closing bracket, then all the spaces there are, at least one. *)
Definition stamp_end (mid rest : string) : Prop :=
  ∃ close spaces,
    mid = close +:+ spaces ∧ (close = "" ∨ close = "]")
    ∧ spaces ≠ "" ∧ all_chars (Ascii.eqb " ") spaces = true
    ∧ is_prefix " " rest = false.

Fixpoint digits_pattern (n : nat) : string :=
  match n with
  | O => ""
  | S k => String "d" (digits_pattern k)
  end.

(** A matcher that consumes a text of the shape [pat]. *)
Definition consumes (pat : string) (m : string → option (string * string))
  : Prop :=
  ∀ s a r, m s = Some (a, r) → s = a +:+ r ∧ shape pat a = true.

Lemma shape_app (p1 p2 a1 a2 : string) :
  shape p1 a1 = true → shape p2 a2 = true →
  shape (p1 +:+ p2) (a1 +:+ a2) = true.
Proof.
  revert a1. induction p1 as [|p p1 IH]; intros [|c a1] H1 H2;
    try discriminate; [exact H2|].
  rewrite !append_cons. cbn [shape] in *.
  apply andb_prop in H1 as [Hc H1]. rewrite Hc, (IH a1 H1 H2). reflexivity.
Qed.

Lemma prefix_drop (p s : string) :
  is_prefix p s = true → s = p +:+ drop (String.length p) s.
Proof.
  revert s. induction p as [|a p IH]; intros s H; [reflexivity|].
  destruct s as [|b s]; [discriminate|].
  cbn [is_prefix] in H. apply andb_prop in H as [Hab Hp].
  apply Ascii.eqb_eq in Hab. subst b.
  rewrite append_cons. cbn [String.length drop]. f_equal. apply IH, Hp.
Qed.

Lemma lit_consumes (p : string) : shape p p = true → consumes p (lit p).
Proof.
  intros Hp s a r. unfold lit, after.
  destruct (is_prefix p s) eqn:E; [|discriminate].
  intros [= <- <-]. split; [apply prefix_drop, E | exact Hp].
Qed.

Lemma chars_consumes (n : nat) : consumes (digits_pattern n) (chars is_digit n).
Proof.
  induction n as [|n IH]; intros s a r; cbn [chars].
  - intros [= <- <-]. split; reflexivity.
  - destruct s as [|c s]; [discriminate|].
    destruct (is_digit c) eqn:Hc; [|discriminate].
    destruct (chars is_digit n s) as [[a0 r0]|] eqn:E; [|discriminate].
    intros [= <- <-]. destruct (IH _ _ _ E) as [-> Ha].
    split; [reflexivity|]. cbn [digits_pattern shape Ascii.eqb Bool.eqb].
    rewrite Hc, Ha. reflexivity.
Qed.

Lemma in_turn_nil_consumes : consumes "" (in_turn []).
Proof. intros s a r [= <- <-]. split; reflexivity. Qed.

Lemma in_turn_cons_consumes (p q : string)
    (m : string → option (string * string))
    (ms : list (string → option (string * string))) :
  consumes p m → consumes q (in_turn ms) →
  consumes (p +:+ q) (in_turn (m :: ms)).
Proof.
  intros Hm Hms s a r. cbn [in_turn].
  destruct (m s) as [[a1 r1]|] eqn:E1; [|discriminate].
  destruct (in_turn ms r1) as [[a2 r2]|] eqn:E2; [|discriminate].
  intros [= <- <-].
  destruct (Hm _ _ _ E1) as [-> H1]. destruct (Hms _ _ _ E2) as [-> H2].
  split; [symmetry; apply append_assoc | apply shape_app; assumption].
Qed.

Lemma hm_consumes :
  consumes "dd:dd" (in_turn [chars is_digit 2; lit ":"; chars is_digit 2]).
Proof.
  apply (in_turn_cons_consumes "dd" ":dd"); [apply (chars_consumes 2)|].
  apply (in_turn_cons_consumes ":" "dd"); [apply lit_consumes; reflexivity|].
  apply (in_turn_cons_consumes "dd" ""); [apply (chars_consumes 2)|].
  apply in_turn_nil_consumes.
Qed.

Lemma seconds_consumes :
  consumes ":dd" (in_turn [lit ":"; chars is_digit 2]).
Proof.
  apply (in_turn_cons_consumes ":" "dd"); [apply lit_consumes; reflexivity|].
  apply (in_turn_cons_consumes "dd" ""); [apply (chars_consumes 2)|].
  apply in_turn_nil_consumes.
Qed.

Lemma date_consumes :
  consumes "dddd-dd-ddT"
    (in_turn [chars is_digit 4; lit "-"; chars is_digit 2; lit "-";
              chars is_digit 2; lit "T"]).
Proof.
  apply (in_turn_cons_consumes "dddd" "-dd-ddT"); [apply (chars_consumes 4)|].
  apply (in_turn_cons_consumes "-" "dd-ddT");
    [apply lit_consumes; reflexivity|].
  apply (in_turn_cons_consumes "dd" "-ddT"); [apply (chars_consumes 2)|].
  apply (in_turn_cons_consumes "-" "ddT"); [apply lit_consumes; reflexivity|].
  apply (in_turn_cons_consumes "dd" "T"); [apply (chars_consumes 2)|].
  apply (in_turn_cons_consumes "T" ""); [apply lit_consumes; reflexivity|].
  apply in_turn_nil_consumes.
Qed.

Lemma span_sound (p : ascii → bool) (s a b : string) :
  span p s = (a, b) →
  s = a +:+ b ∧ all_chars p a = true
  ∧ match b with String c _ => p c = false | "" => True end.
Proof.
  revert a b. induction s as [|c s IH]; intros a b; cbn [span].
  - intros [= <- <-]. repeat split.
  - destruct (p c) eqn:Hc.
    + destruct (span p s) as [a0 b0]. intros [= <- <-].
      destruct (IH a0 b0 eq_refl) as (-> & Ha & Hb).
      cbn [all_chars]. rewrite Hc, Ha. repeat split. exact Hb.
    + intros [= <- <-]. repeat split. exact Hc.
Qed.

(** One or more spaces, as many as there are. *)
Definition spaces1 (t : string) : option string :=
  match t with
  | String " " _ => Some (snd (span (Ascii.eqb " ") t))
  | _ => None
  end.

Lemma spaces1_sound (t r : string) :
  spaces1 t = Some r →
  ∃ spaces, t = spaces +:+ r ∧ spaces ≠ ""
            ∧ all_chars (Ascii.eqb " ") spaces = true
            ∧ is_prefix " " r = false.
Proof.
  destruct t as [|c t]; [discriminate|].
  destruct (Ascii.ascii_dec c " ") as [->|N].
  - intros H.
    assert (r = snd (span (Ascii.eqb " ") (String " " t))) as ->
      by (cbn [spaces1] in H; congruence).
    clear H.
    destruct (span (Ascii.eqb " ") (String " " t)) as [a b] eqn:E.
    pose proof (span_sound _ _ _ _ E) as (Hs & Ha & Hb).
    exists a. cbn [snd]. split; [exact Hs|]. split.
    + cbn [span Ascii.eqb Bool.eqb] in E.
      destruct (span (Ascii.eqb " ") t). injection E as <- _. discriminate.
    + split; [exact Ha|]. destruct b as [|x b]; [reflexivity|].
      cbn [is_prefix]. rewrite Hb. reflexivity.
  - destruct c as [[] [] [] [] [] [] [] []]; try discriminate.
    congruence.
Qed.

Lemma time_tail_eq (s : string) :
  time_tail s
  = match lit "]" s with
    | Some (_, r) =>
        match spaces1 r with
        | Some r' => Some r'
        | None => spaces1 s
        end
    | None => spaces1 s
    end.
Proof. reflexivity. Qed.

Lemma time_tail_sound (s r : string) :
  time_tail s = Some r → ∃ mid, s = mid +:+ r ∧ stamp_end mid r.
Proof.
  rewrite time_tail_eq.
  assert (G : spaces1 s = Some r → ∃ mid, s = mid +:+ r ∧ stamp_end mid r).
  { intros H. destruct (spaces1_sound _ _ H) as (sp & -> & H1 & H2 & H3).
    exists sp. split; [reflexivity|]. exists "", sp. auto 6. }
  destruct (lit "]" s) as [[a r1]|] eqn:E; [|exact G].
  destruct (spaces1 r1) as [r'|] eqn:E1; [|exact G].
  intros [= <-].
  assert (a = "]") as ->.
  { unfold lit in E. destruct (after "]" s); [|discriminate].
    injection E as <- _. reflexivity. }
  destruct (lit_consumes "]" eq_refl _ _ _ E) as [-> _].
  destruct (spaces1_sound _ _ E1) as (sp & -> & H1 & H2 & H3).
  exists ("]" +:+ sp). split; [reflexivity|]. exists "]", sp. auto 6.
Qed.

Lemma time_hm_sound (s t r : string) :
  time_hm s = Some (t, r) →
  (shape "dd:dd" t || shape "dd:dd:dd" t) = true
  ∧ ∃ mid, s = t +:+ mid +:+ r ∧ stamp_end mid r.
Proof.
  unfold time_hm.
  destruct (in_turn [chars is_digit 2; lit ":"; chars is_digit 2] s)
    as [[hm r0]|] eqn:E; [|discriminate].
  destruct (hm_consumes _ _ _ E) as [-> Hhm].
  assert (G : match time_tail r0 with
              | Some r' => Some (hm, r')
              | None => None
              end = Some (t, r) →
              (shape "dd:dd" t || shape "dd:dd:dd" t) = true
              ∧ ∃ mid, hm +:+ r0 = t +:+ mid +:+ r ∧ stamp_end mid r).
  { destruct (time_tail r0) as [r'|] eqn:Et; [|discriminate].
    intros [= <- <-]. destruct (time_tail_sound _ _ Et) as (mid & -> & Hm).
    split; [rewrite Hhm; reflexivity|]. exists mid. split; [reflexivity|].
    exact Hm. }
  destruct (in_turn [lit ":"; chars is_digit 2] r0) as [[sec r1]|] eqn:Es;
    [|exact G].
  destruct (time_tail r1) as [r'|] eqn:Et; [|exact G].
  intros [= <- <-]. destruct (seconds_consumes _ _ _ Es) as [-> Hsec].
  destruct (time_tail_sound _ _ Et) as (mid & -> & Hm).
  split.
  - pose proof (shape_app "dd:dd" ":dd" hm sec Hhm Hsec) as H.
    change ("dd:dd" +:+ ":dd") with "dd:dd:dd" in H. rewrite H.
    apply orb_true_r.
  - exists mid. split; [|exact Hm]. rewrite append_assoc. reflexivity.
Qed.

Lemma time_body_sound (s t r : string) :
  time_body s = Some (t, r) →
  time_shape t = true ∧ ∃ mid, s = t +:+ mid +:+ r ∧ stamp_end mid r.
Proof.
  unfold time_body, time_shape.
  assert (G : time_hm s = Some (t, r) →
              (shape "dd:dd" t || shape "dd:dd:dd" t
               || shape "dddd-dd-ddTdd:dd" t
               || shape "dddd-dd-ddTdd:dd:dd" t) = true
              ∧ ∃ mid, s = t +:+ mid +:+ r ∧ stamp_end mid r).
  { intros H. destruct (time_hm_sound _ _ _ H) as [Hs Hm].
    split; [rewrite Hs; reflexivity | exact Hm]. }
  destruct (in_turn [chars is_digit 4; lit "-"; chars is_digit 2; lit "-";
                     chars is_digit 2; lit "T"] s)
    as [[date r0]|] eqn:E; [|exact G].
  destruct (time_hm r0) as [[hm r']|] eqn:Eh; [|exact G].
  intros [= <- <-]. destruct (date_consumes _ _ _ E) as [-> Hd].
  destruct (time_hm_sound _ _ _ Eh) as [Hs (mid & -> & Hm)].
  split.
  - apply orb_prop in Hs as [Hs|Hs].
    + pose proof (shape_app "dddd-dd-ddT" "dd:dd" date hm Hd Hs) as H.
      change ("dddd-dd-ddT" +:+ "dd:dd") with "dddd-dd-ddTdd:dd" in H.
      rewrite H, !orb_true_r. reflexivity.
    + pose proof (shape_app "dddd-dd-ddT" "dd:dd:dd" date hm Hd Hs) as H.
      change ("dddd-dd-ddT" +:+ "dd:dd:dd") with "dddd-dd-ddTdd:dd:dd" in H.
      rewrite H, !orb_true_r. reflexivity.
  - exists mid. split; [|exact Hm]. rewrite append_assoc. reflexivity.
Qed.

(** [time], the first component of every yielded tuple. *)
Definition event_time (ev : Event) : option string :=
  match ev with
  | Comment t _ _ | Action t _ | Join t _ | Part t _ | NickChange t _ _ _
  | Server t _ | Other t _ => t
  end.

Lemma classify_time (time : option string) (line : string) (ev : Event) :
  classify time line = Ok ev → event_time ev = time.
Proof.
  unfold classify. destruct (match_nick line) as [[n x]|].
  - intros [= <-]. reflexivity.
  - repeat match goal with
           | |- context [if ?b then _ else _] => destruct b
           | |- context [match match_nick_change ?l with _ => _ end] =>
               destruct (match_nick_change l) as [[? ?]|]
           end; intros [= <-]; reflexivity.
Qed.

(** A match of [TIME_REGEXP] splits the line into an optional opening
    bracket, the timestamp, an optional closing bracket, one or more
    spaces and the rest, which does not start with a space; the
    timestamp is [HH:MM] or [HH:MM:SS], with or without a date
    [YYYY-MM-DDT] before it.  So the time of every event the parser
    yields has one of these four forms. *)
Theorem timestamp_split :
  (∀ line t rest,
      match_time line = Some (t, rest) →
      time_shape t = true
      ∧ ∃ open mid, line = open +:+ t +:+ mid +:+ rest
                    ∧ (open = "" ∨ open = "[") ∧ stamp_end mid rest)
  ∧ (∀ raw ev t,
        parse_line raw = Some (Ok ev) → event_time ev = Some t →
        time_shape t = true).
Proof.
  assert (M : ∀ line t rest,
             match_time line = Some (t, rest) →
             time_shape t = true
             ∧ ∃ open mid, line = open +:+ t +:+ mid +:+ rest
                           ∧ (open = "" ∨ open = "[") ∧ stamp_end mid rest).
  { intros line t rest. unfold match_time.
    assert (G : time_body line = Some (t, rest) →
                time_shape t = true
                ∧ ∃ open mid, line = open +:+ t +:+ mid +:+ rest
                              ∧ (open = "" ∨ open = "[")
                              ∧ stamp_end mid rest).
    { intros H. destruct (time_body_sound _ _ _ H) as [Hs (mid & -> & Hm)].
      split; [exact Hs|]. exists "", mid. auto. }
    destruct (lit "[" line) as [[a r]|] eqn:E; [|exact G].
    destruct (time_body r) as [[t0 r0]|] eqn:Eb; [|exact G].
    intros [= <- <-].
    destruct (lit_consumes "[" eq_refl _ _ _ E) as [-> _].
    assert (a = "[") as ->.
    { unfold lit in E. destruct (after "[" (a +:+ r)); [|discriminate].
      injection E as <- _. reflexivity. }
    destruct (time_body_sound _ _ _ Eb) as [Hs (mid & -> & Hm)].
    split; [exact Hs|]. exists "[", mid. auto. }
  split; [exact M|].
  intros raw ev t. unfold parse_line.
  destruct (String.eqb (rstrip_crlf raw) ""); [discriminate|].
  destruct (match_time (rstrip_crlf raw)) as [[t0 rest]|] eqn:E.
  - intros [= H] Ht. apply classify_time in H.
    assert (t0 = t) as -> by congruence. exact (proj1 (M _ _ _ E)).
  - intros [= H] Ht. apply classify_time in H. congruence.
Qed.

Lemma timestamp_split_witness :
  time_shape "2005-01-09T12:30:45" = true
  ∧ time_shape "12:30" = true.
Proof.
  split.
  - apply (proj1 (proj1 timestamp_split "[2005-01-09T12:30:45]  <al> hi"
                    "2005-01-09T12:30:45" "<al> hi" ltac:(reflexivity))).
  - apply (proj2 timestamp_split "12:30 * al waves" (Action (Some "12:30")
             "* al waves") "12:30"); reflexivity.
Defined.

Section Stamps.

Local Arguments is_digit : simpl never.

Lemma shape_d (pat s : string) (c : ascii) :
  shape (String "d" pat) (String c s) = is_digit c && shape pat s.
Proof. reflexivity. Qed.

Lemma shape_l (p : ascii) (pat s : string) (c : ascii) :
  Ascii.eqb p "d" = false →
  shape (String p pat) (String c s) = Ascii.eqb p c && shape pat s.
Proof. intros H. cbn [shape]. rewrite H. reflexivity. Qed.

Lemma shape_nil (s : string) : shape "" s = true → s = "".
Proof. destruct s; [reflexivity | discriminate]. Qed.

Lemma span_stop (rest : string) :
  is_prefix " " rest = false → span (Ascii.eqb " ") rest = ("", rest).
Proof.
  destruct rest as [|c rest]; [reflexivity|].
  cbn [is_prefix span]. rewrite andb_true_r. intros ->. reflexivity.
Qed.

Lemma span_space (rest : string) :
  is_prefix " " rest = false →
  snd (span (Ascii.eqb " ") (String " " rest)) = rest.
Proof.
  intros H. cbn [span Ascii.eqb Bool.eqb]. rewrite (span_stop rest H).
  reflexivity.
Qed.

Lemma digit_not_bracket (c : ascii) (s : string) :
  is_digit c = true → is_prefix "[" (String c s) = false.
Proof.
  destruct c as [[] [] [] [] [] [] [] []]; try discriminate; reflexivity.
Qed.

Ltac peel H :=
  match type of H with
  | shape "" ?t = true => apply shape_nil in H; subst t
  | shape (String "d" _) ?t = true =>
      destruct t as [|? t]; [discriminate H|];
      rewrite shape_d in H;
      let D := fresh "D" in apply andb_prop in H as [D H]
  | shape (String _ _) ?t = true =>
      destruct t as [|? t]; [discriminate H|];
      rewrite shape_l in H by reflexivity;
      let E := fresh "E" in
      apply andb_prop in H as [E H]; apply Ascii.eqb_eq in E; subst
  end.

Lemma stamped_bracket (t rest : string) :
  time_shape t = true → is_prefix " " rest = false →
  match_time (String "[" (t +:+ String "]" (String " " rest)))
  = Some (t, rest).
Proof.
  intros Ht Hr.
  unfold time_shape in Ht.
  apply orb_prop in Ht as [Ht|Ht]; [apply orb_prop in Ht as [Ht|Ht];
                                    [apply orb_prop in Ht as [Ht|Ht]|]|];
    repeat peel Ht;
    rewrite !append_cons; change ("" +:+ ?x) with x;
    unfold match_time, time_body, time_hm, time_tail, lit, after;
    repeat (cbn [String.append in_turn chars is_prefix drop String.length
                 Ascii.eqb Bool.eqb andb orb];
            repeat match goal with
                   | D : is_digit ?c = true |- context [is_digit ?c] =>
                       rewrite D
                   end;
            try change (is_digit ":") with false);
    rewrite (span_space rest Hr); reflexivity.
Qed.

Lemma stamped_plain (t rest : string) :
  time_shape t = true → is_prefix " " rest = false →
  match_time (t +:+ String " " rest) = Some (t, rest).
Proof.
  intros Ht Hr.
  unfold time_shape in Ht.
  apply orb_prop in Ht as [Ht|Ht]; [apply orb_prop in Ht as [Ht|Ht];
                                    [apply orb_prop in Ht as [Ht|Ht]|]|];
    repeat peel Ht;
    rewrite !append_cons; change ("" +:+ ?x) with x;
    unfold match_time, lit, after;
    rewrite digit_not_bracket by assumption;
    unfold time_body, time_hm, time_tail, lit, after;
    repeat (cbn [String.append in_turn chars is_prefix drop String.length
                 Ascii.eqb Bool.eqb andb orb];
            repeat match goal with
                   | D : is_digit ?c = true |- context [is_digit ?c] =>
                       rewrite D
                   end;
            try change (is_digit ":") with false);
    rewrite (span_space rest Hr); reflexivity.
Qed.

End Stamps.

Lemma parse_stamped (raw t rest : string) :
  time_shape t = true → is_prefix " " rest = false →
  rstrip_crlf raw = "[" +:+ t +:+ "] " +:+ rest
  ∨ rstrip_crlf raw = t +:+ " " +:+ rest →
  parse_line raw = Some (classify (Some t) rest).
Proof.
  intros Ht Hr [H|H]; unfold parse_line; rewrite H.
  - change ("[" +:+ t +:+ "] " +:+ rest)
      with (String "[" (t +:+ String "]" (String " " rest))).
    rewrite (stamped_bracket t rest Ht Hr). reflexivity.
  - change (t +:+ " " +:+ rest) with (t +:+ String " " rest).
    rewrite (stamped_plain t rest Ht Hr).
    destruct t as [|a t]; [discriminate Ht | reflexivity].
Qed.

(** A line that carries a timestamp of one of the four forms, in
    brackets or bare, followed by one space and a text that does not
    start with a space, is parsed as that text with that time: the
    stamp is cut off before the line is classified. *)
Theorem stamped_line_parses (raw t rest : string) :
  time_shape t = true → is_prefix " " rest = false →
  rstrip_crlf raw = "[" +:+ t +:+ "] " +:+ rest
  ∨ rstrip_crlf raw = t +:+ " " +:+ rest →
  parse_line raw = Some (classify (Some t) rest).
Proof. apply parse_stamped. Qed.

Lemma stamped_line_parses_witness :
  parse_line ("[12:30:45] <al> hi" +:+ nl)
  = Some (classify (Some "12:30:45") "<al> hi").
Proof.
  apply (stamped_line_parses _ "12:30:45" "<al> hi");
    [reflexivity | reflexivity | left; reflexivity].
Defined.

(** ** The colour chooser: construction and range *)

Lemma unit_range_spec (x : Q) : unit_range x = true ↔ (0 <= x <= 1)%Q.
Proof.
  unfold unit_range. rewrite andb_true_iff, !Qle_bool_iff. tauto.
Qed.

Lemma palette_valid (l : list (Q * Q * Q)) :
  forallb (fun '(r, g, b) => unit_range r && unit_range g && unit_range b) l
  = true →
  Forall (fun '(r, g, b) => (0 <= r <= 1 ∧ 0 <= g <= 1 ∧ 0 <= b <= 1)%Q) l.
Proof.
  induction l as [|[[r g] b] l IH]; cbn [forallb]; intros H; constructor.
  - apply andb_prop in H as [H _].
    apply andb_prop in H as [H Hb]. apply andb_prop in H as [Hr Hg].
    rewrite unit_range_spec in Hr, Hg, Hb. tauto.
  - apply IH. apply andb_prop in H as [_ H]. exact H.
Qed.

Lemma init_valid (lo hi : Z) (palette : option (list (Q * Q * Q))) (a b : Q)
    (self : ColourChooser) :
  init lo hi palette a b = Ok self → valid_chooser self.
Proof.
  unfold init, assert, bind, valid_chooser.
  destruct (byte_range lo) eqn:Hlo; [|discriminate].
  destruct (byte_range hi) eqn:Hhi; [|discriminate].
  apply byte_range_spec in Hlo, Hhi.
  destruct palette as [[|x l]|].
  1, 3: (destruct (unit_range a) eqn:Ha; [|discriminate];
         destruct (unit_range b) eqn:Hb; [|discriminate];
         apply unit_range_spec in Ha, Hb;
         intros [= <-]; cbn; repeat split; try lia; try discriminate;
         repeat constructor; tauto).
  destruct (forallb _ (x :: l)) eqn:Hf; [|discriminate].
  intros [= <-]. cbn [rgbmin rgbmax rgb].
  repeat split; try lia; [discriminate|].
  apply palette_valid. exact Hf.
Qed.

(** Every chooser that [__init__] accepts, with the default palette or
    one of its own and whichever of the two bounds is the larger,
    returns a colour [#rrggbb] for every index between 0 and the total,
    for totals below 2^53, where every integer that [choose] converts
    to a float is a float; [__init__] rejects its arguments with an
    assertion error and in no other way. *)
Theorem constructed_chooser_returns (lo hi : Z)
    (palette : option (list (Q * Q * Q))) (a b : Q) :
  (∀ self, init lo hi palette a b = Ok self →
           ∀ i n, (0 <= i <= n)%Z → (n < 2 ^ 53)%Z →
                  ∃ c, choose self i n = Ok c ∧ is_rrggbb c = true)
  ∧ (∀ e, init lo hi palette a b = Raise e → e = AssertionError).
Proof.
  split.
  - intros self H i n Hi _.
    destruct (choose_ok self i n (init_valid _ _ _ _ _ _ H) Hi)
      as (r & g & c & _ & _ & Hc & Hs).
    eauto.
  - intros e. unfold init, assert, bind.
    destruct (byte_range lo); [|congruence].
    destruct (byte_range hi); [|congruence].
    destruct palette as [[|x l]|];
      repeat match goal with
             | |- context [if ?c then _ else _] => destruct c
             | |- context [match ?c with true => _ | false => _ end] =>
                 destruct c
             end; congruence.
Qed.

Lemma constructed_chooser_returns_witness :
  ∃ c, choose (mkChooser 100 200 [(1, 0, 1 # 2)%Q]) 3 7 = Ok c
       ∧ is_rrggbb c = true.
Proof.
  apply (proj1 (constructed_chooser_returns 100 200
                  (Some [(1, 0, 1 # 2)%Q]) 0 0)
           (mkChooser 100 200 [(1, 0, 1 # 2)%Q]) ltac:(reflexivity) 3%Z 7%Z);
    lia.
Defined.

Lemma Qtrunc_between (x : Q) (lo hi : Z) :
  (inject_Z lo <= x)%Q → (x <= inject_Z hi)%Q → (0 <= lo)%Z →
  (lo <= Qtrunc x <= hi)%Z.
Proof.
  destruct x as [a d]. unfold Qle, Qtrunc; simpl. intros H0 H1 Hlo.
  assert (Ha : (0 <= a)%Z) by nia.
  rewrite Z.quot_div_nonneg by lia.
  split.
  - apply Z.div_le_lower_bound; lia.
  - apply Z.div_le_upper_bound; lia.
Qed.

Lemma default_scaled (c : Q) (x y : Z) :
  (1 # 2 <= c)%Q → (c <= 95 # 100)%Q → (0 <= x <= y)%Z → (0 < y)%Z →
  (62 <= Qtrunc (c * (inject_Z 240
                      + inject_Z (125 - 240) * inject_Z (y - x) / inject_Z y))
   <= 228)%Z.
Proof.
  intros Hc0 Hc1 Hx Hy.
  pose proof (share_unit x y Hx Hy) as Ht.
  set (t := (inject_Z (y - x) / inject_Z y)%Q) in Ht.
  set (m := (inject_Z 240
             + inject_Z (125 - 240) * inject_Z (y - x) / inject_Z y)%Q).
  assert (Em : (m == 240 - 115 * t)%Q).
  { unfold m, t. unfold Qdiv. change (inject_Z (125 - 240)) with (-115 # 1).
    change (inject_Z 240) with (240 # 1). ring. }
  assert (Hm : (125 <= m <= 240)%Q) by (split; rewrite Em; nra).
  apply Qtrunc_between; [| |lia].
  - change (inject_Z 62) with (62 # 1). nra.
  - change (inject_Z 228) with (228 # 1). nra.
Qed.

(** The channels of the default chooser lie between 62 and 228 for
    every index between 0 and the total: no colour it hands out is
    close to black or to white. *)
Theorem default_channels_range (i n : Z) :
  (0 <= i <= n)%Z →
  ∀ r g b, channels default_chooser i n = (r, g, b) →
           (62 <= r <= 228)%Z ∧ (62 <= g <= 228)%Z ∧ (62 <= b <= 228)%Z.
Proof.
  intros Hi r g b. unfold channels.
  set (n' := if (n =? 0)%Z then 1%Z else n).
  assert (Hn : (0 <= i <= n')%Z ∧ (0 < n')%Z).
  { unfold n'. destruct (Z.eqb_spec n 0); lia. }
  destruct Hn as [Hi' Hn'].
  assert (Hp : Forall (fun '(r, g, b) =>
                         (1 # 2 <= r ∧ r <= 95 # 100)%Q
                         ∧ (1 # 2 <= g ∧ g <= 95 # 100)%Q
                         ∧ (1 # 2 <= b ∧ b <= 95 # 100)%Q)
                 (rgb default_chooser)).
  { repeat constructor; cbv; discriminate. }
  assert (H6 : (0 <= i mod Z.of_nat (List.length (rgb default_chooser)) < 6)%Z).
  { apply Z.mod_pos_bound. reflexivity. }
  set (k := Z.to_nat (i mod Z.of_nat (List.length (rgb default_chooser)))).
  assert (Hk : (k < 6)%nat) by (unfold k; lia).
  clearbody k.
  assert (Hc : (let '(cr, cg, cb) := nth k (rgb default_chooser) (0, 0, 0)%Q in
                (1 # 2 <= cr ∧ cr <= 95 # 100)%Q
                ∧ (1 # 2 <= cg ∧ cg <= 95 # 100)%Q
                ∧ (1 # 2 <= cb ∧ cb <= 95 # 100)%Q)).
  { do 6 (destruct k as [|k]; [cbv; repeat split; discriminate|]). lia. }
  destruct (nth k (rgb default_chooser) (0, 0, 0)%Q) as [[cr cg] cb].
  destruct Hc as ([? ?] & [? ?] & [? ?]).
  intros [= <- <- <-].
  repeat split; apply default_scaled; assumption.
Qed.

Lemma default_channels_range_witness :
  let '(r, g, b) := channels default_chooser 30 30 in
  (62 <= r <= 228)%Z ∧ (62 <= g <= 228)%Z ∧ (62 <= b <= 228)%Z.
Proof.
  exact (default_channels_range 30 30 ltac:(lia) 228%Z 120%Z 120%Z eq_refl).
Defined.

(** ** The colour chooser: repeated colours *)

Lemma Qtrunc_comp (x y : Q) : (x == y)%Q → Qtrunc x = Qtrunc y.
Proof.
  destruct x as [a d], y as [a' d']. unfold Qeq, Qtrunc; simpl. intros H.
  rewrite <- (Z.quot_mul_cancel_r a (Z.pos d) (Z.pos d')) by lia.
  rewrite H, (Z.mul_comm (Z.pos d) (Z.pos d')).
  apply Z.quot_mul_cancel_r; lia.
Qed.

Lemma share_doubled (i n : Z) :
  (n ≠ 0)%Z →
  (inject_Z (2 * n - 2 * i) / inject_Z (2 * n)
   == inject_Z (n - i) / inject_Z n)%Q.
Proof.
  intros Hn. replace (2 * n - 2 * i)%Z with (2 * (n - i))%Z by lia.
  rewrite !inject_Z_mult.
  assert (H : ¬ (inject_Z n == 0)%Q) by (unfold Qeq; simpl; lia).
  field. exact H.
Qed.

Lemma range_cases (k : nat) (P : Z → bool) :
  forallb P (map Z.of_nat (seq 0 k)) = true →
  ∀ z, (0 <= z < Z.of_nat k)%Z → P z = true.
Proof.
  intros H z Hz. rewrite forallb_forall in H. apply H.
  apply in_map_iff. exists (Z.to_nat z). split; [lia|].
  apply in_seq. lia.
Qed.

(** The colour string of a result, empty when the call raised. *)
Definition colour_of (r : result string) : string :=
  match r with
  | Ok c => c
  | Raise _ => ""
  end.

(** Whether the colours [i] and [j] of [n] differ, for [1 <= i < j < n]. *)
Definition differ (n i j : Z) : bool :=
  negb ((1 <=? i)%Z && (i <? j)%Z && (j <? n)%Z)
  || negb (String.eqb (colour_of (html_rgb i n)) (colour_of (html_rgb j n))).

(** A log in which [k] nicks speak in turn, one line each. *)
Definition speakers (k : nat) : list string :=
  map (fun i => "<" +:+ String (ascii_of_nat (65 + i)) "" +:+ "> hi" +:+ nl)
    (seq 0 k).

(** Doubling both arguments of [choose] gives the same colour when the
    index is a multiple of the length of the palette and lies between 0
    and the total, for totals below 2^52, where the doubled integers
    are floats still: the share [(n - i) / n] and the palette entry are
    the same.  So although the
    29 colours of the first estimate of [log2html] are pairwise
    different, a colour comes back once the estimate has doubled: the
    36th nick of a log is given the colour of the 18th. *)
Theorem colours_repeat :
  (∀ self i n,
      (0 <= i <= n)%Z → (0 < n < 2 ^ 52)%Z →
      (i mod Z.of_nat (List.length (rgb self)) = 0)%Z →
      choose self (2 * i) (2 * n) = choose self i n)
  ∧ (∀ i j, (1 <= i < j)%Z → (j < 30)%Z → html_rgb i 30 ≠ html_rgb j 30)
  ∧ (∀ title colours charset,
        let cs := htmlcolours (calls (log2html (speakers 36) title colours
                                        charset)) in
        List.length cs = 36%nat ∧ nth 17 cs "" = nth 35 cs "").
Proof.
  split; [|split].
  - intros self i n _ [Hn _] Hi. unfold choose.
    destruct (Z.eqb_spec (Z.of_nat (List.length (rgb self))) 0) as [|HL];
      [reflexivity|].
    assert (E : channels self (2 * i) (2 * n) = channels self i n).
    { unfold channels.
      destruct (Z.eqb_spec (2 * n) 0); [lia|].
      destruct (Z.eqb_spec n 0); [lia|].
      assert (H2 : ((2 * i) mod Z.of_nat (List.length (rgb self)) = 0)%Z).
      { rewrite Z.mul_mod by exact HL. rewrite Hi, Z.mul_0_r.
        apply Z.mod_0_l. exact HL. }
      rewrite H2, Hi.
      destruct (nth (Z.to_nat 0) (rgb self) (0, 0, 0)%Q) as [[r g] b].
      pose proof (share_doubled i n ltac:(assumption)) as Hs.
      assert (Em : (inject_Z (rgbmin self)
                    + inject_Z (rgbmax self - rgbmin self)
                      * inject_Z (2 * n - 2 * i) / inject_Z (2 * n)
                    == inject_Z (rgbmin self)
                       + inject_Z (rgbmax self - rgbmin self)
                         * inject_Z (n - i) / inject_Z n)%Q).
      { unfold Qdiv in *. rewrite <- !Qmult_assoc, Hs. reflexivity. }
      f_equal; [f_equal|]; apply Qtrunc_comp; rewrite Em; reflexivity. }
    rewrite E. reflexivity.
  - intros i j Hij Hj H.
    assert (D : differ 30 i j = true).
    { apply (range_cases 30 (fun j => differ 30 i j)); [|lia].
      apply (range_cases 30
               (fun i => forallb (fun j => differ 30 i j)
                           (map Z.of_nat (seq 0 30)))); [|lia].
      vm_compute. reflexivity. }
    unfold differ in D.
    destruct (Z.leb_spec 1 i); [|lia].
    destruct (Z.ltb_spec i j); [|lia].
    destruct (Z.ltb_spec j 30); [|lia].
    cbn [andb negb orb] in D. rewrite H, String.eqb_refl in D.
    discriminate D.
  - intros title colours charset. vm_compute. split; reflexivity.
Qed.

Lemma colours_repeat_witness :
  choose default_chooser 36 60 = choose default_chooser 18 30
  ∧ html_rgb 1 30 ≠ html_rgb 2 30.
Proof.
  split.
  - apply (proj1 colours_repeat default_chooser 18%Z 30%Z);
      [lia | lia | reflexivity].
  - apply (proj1 (proj2 colours_repeat) 1%Z 2%Z); lia.
Defined.

(** ** The colour chooser: the colour string *)

(** The value of two hexadecimal digits. *)
Definition hex_value (c : ascii) : Z :=
  if is_digit c then Z.of_nat (code c) - 48 else Z.of_nat (code c) - 87.

Definition hex_pair_value (s : string) : Z :=
  match s with
  | String a (String b "") => 16 * hex_value a + hex_value b
  | _ => -1
  end.

Lemma format_02x_value (z : Z) :
  (0 <= z < 256)%Z → hex_pair_value (format_02x z) = z.
Proof.
  intros Hz.
  apply Z.eqb_eq.
  apply (byte_cases (fun z => (hex_pair_value (format_02x z) =? z)%Z));
    [|exact Hz].
  vm_compute. reflexivity.
Qed.

Lemma hex_pair_length (s : string) :
  is_hex_pair s = true → ∃ a b, s = String a (String b "").
Proof.
  destruct s as [|a [|b [|c s]]]; try discriminate. eauto.
Qed.

Lemma format_rgb_inj (r g b r' g' b' : Z) :
  (0 <= r < 256)%Z → (0 <= g < 256)%Z → (0 <= b < 256)%Z →
  (0 <= r' < 256)%Z → (0 <= g' < 256)%Z → (0 <= b' < 256)%Z →
  format_rgb (r, g, b) = format_rgb (r', g', b') →
  (r, g, b) = (r', g', b').
Proof.
  intros Hr Hg Hb Hr' Hg' Hb'. unfold format_rgb.
  pose proof (format_02x_value r Hr) as Vr.
  pose proof (format_02x_value g Hg) as Vg.
  pose proof (format_02x_value b Hb) as Vb.
  pose proof (format_02x_value r' Hr') as Vr'.
  pose proof (format_02x_value g' Hg') as Vg'.
  pose proof (format_02x_value b' Hb') as Vb'.
  destruct (hex_pair_length _ (format_02x_byte r Hr)) as (r1 & r2 & Er).
  destruct (hex_pair_length _ (format_02x_byte g Hg)) as (g1 & g2 & Eg).
  destruct (hex_pair_length _ (format_02x_byte b Hb)) as (b1 & b2 & Eb).
  destruct (hex_pair_length _ (format_02x_byte r' Hr')) as (r1' & r2' & Er').
  destruct (hex_pair_length _ (format_02x_byte g' Hg')) as (g1' & g2' & Eg').
  destruct (hex_pair_length _ (format_02x_byte b' Hb')) as (b1' & b2' & Eb').
  rewrite Er, Eg, Eb, Er', Eg', Eb' in *.
  intros H. cbv [String.append] in H.
  injection H as -> -> -> -> -> ->.
  congruence.
Qed.

(** On channels in the byte range the colour string tells the channels:
    two different triples of bytes are never written as the same
    string. *)
Theorem format_rgb_distinct (r g b r' g' b' : Z) :
  (0 <= r < 256)%Z → (0 <= g < 256)%Z → (0 <= b < 256)%Z →
  (0 <= r' < 256)%Z → (0 <= g' < 256)%Z → (0 <= b' < 256)%Z →
  (r, g, b) ≠ (r', g', b') →
  format_rgb (r, g, b) ≠ format_rgb (r', g', b').
Proof.
  intros Hr Hg Hb Hr' Hg' Hb' N H. apply N.
  apply format_rgb_inj; assumption.
Qed.

Lemma format_rgb_distinct_witness :
  format_rgb (64, 122, 64)%Z ≠ format_rgb (64, 122, 65)%Z.
Proof. apply format_rgb_distinct; try lia. intros [= ]. Defined.

(** ** The texts that reach the formatter *)

Section Rendering.

Local Arguments linkify : simpl never.
Local Arguments server_text : simpl never.
Local Arguments nick_colour : simpl never.
Local Arguments escape : simpl never.
Local Arguments replace : simpl never.

Lemma replace_spaces_cons (c : ascii) (s : string) :
  replace "  " "&nbsp;&nbsp;" (String c s)
  = if is_prefix "  " (String c s)
    then "&nbsp;&nbsp;" +:+ replace "  " "&nbsp;&nbsp;" (drop 1 s)
    else String c (replace "  " "&nbsp;&nbsp;" s).
Proof.
  unfold replace. cbn [replace_from].
  destruct (is_prefix "  " (String c s)) eqn:E; [|reflexivity].
  destruct s as [|c' s']; [|reflexivity].
  cbn [is_prefix] in E. rewrite andb_false_r in E. discriminate E.
Qed.

Lemma contains_skip (c : ascii) (x : string) :
  Ascii.eqb " " c = false → contains "  " (String c x) = contains "  " x.
Proof. intros H. cbn [contains is_prefix]. rewrite H. reflexivity. Qed.

Lemma contains_nbsp (x : string) :
  contains "  " ("&nbsp;&nbsp;" +:+ x) = contains "  " x.
Proof.
  rewrite !append_cons. change ("" +:+ x) with x.
  rewrite !contains_skip by reflexivity. reflexivity.
Qed.

Lemma replace_spaces_head (s : string) :
  is_prefix " " (replace "  " "&nbsp;&nbsp;" s) = true →
  is_prefix " " s = true.
Proof.
  destruct s as [|c s]; [discriminate|]. rewrite replace_spaces_cons.
  destruct (is_prefix "  " (String c s)); [|exact (fun H => H)].
  rewrite append_cons. discriminate.
Qed.

Lemma is_prefix_two (c : ascii) (s : string) :
  is_prefix "  " (String c s) = Ascii.eqb " " c && is_prefix " " s.
Proof. reflexivity. Qed.

Lemma drop_length (s : string) :
  (String.length (drop 1 s) <= String.length s)%nat.
Proof. destruct s; cbn; lia. Qed.

Lemma replace_spaces_none (n : nat) (s : string) :
  (String.length s <= n)%nat →
  contains "  " (replace "  " "&nbsp;&nbsp;" s) = false.
Proof.
  revert s. induction n as [|n IH]; intros s Hl.
  - destruct s; [reflexivity | cbn in Hl; lia].
  - destruct s as [|c s]; [reflexivity|]. cbn [String.length] in Hl.
    rewrite replace_spaces_cons.
    destruct (is_prefix "  " (String c s)) eqn:E.
    + rewrite contains_nbsp. apply IH.
      pose proof (drop_length s). lia.
    + cbn [contains]. rewrite (IH s) by lia. rewrite orb_false_r.
      destruct (is_prefix "  " (String c (replace "  " "&nbsp;&nbsp;" s)))
        eqn:F; [|reflexivity].
      rewrite is_prefix_two in F, E. apply andb_prop in F as [Fc Fs].
      rewrite Fc, (replace_spaces_head s Fs) in E. discriminate E.
Qed.

(** What [step] does with a comment, from a state of a run. *)
Lemma step_comment (colours : Colours) (st st' : Registry)
    (t : option string) (n x : string) (call : Call) :
  counters_ok st → colours_ok st →
  step colours st (Comment t n x) = Ok (st', call) →
  ∃ link c, linkify (escape x) = Ok link
            ∧ call = Nicktext (escape n)
                       (replace "  " "&nbsp;&nbsp;" link) c
            ∧ is_rrggbb c = true.
Proof.
  intros Hc Hm. cbn [step].
  destruct (nick_colour_ok st (escape n) Hc Hm)
    as (st1 & c & -> & _ & Hm1 & Hl).
  cbn [bind]. destruct (linkify (escape x)) as [link|]; [|discriminate].
  cbn. intros [= <- <-]. exists link, c. repeat split.
  exact (Hm1 _ _ Hl).
Qed.

(** Every call of a run over lines is made by [step] from a state that
    satisfies the invariant of the registry. *)
Lemma run_lines_calls (colours : Colours) (infile : list string)
    (st : Registry) (call : Call) :
  counters_ok st → colours_ok st →
  In call (calls (run_lines colours st infile)) →
  ∃ ev st1 st2, counters_ok st1 ∧ colours_ok st1
                ∧ step colours st1 ev = Ok (st2, call).
Proof.
  revert st. induction infile as [|raw infile IH]; intros st Hc Hm;
    cbn [run_lines]; [intros []|].
  destruct (parse_line raw) as [[ev|e]|]; [|intros []|apply IH; assumption].
  destruct (step_ok colours st ev Hc Hm) as (st1 & k & E & Hc1 & Hm1).
  rewrite E. cbn. intros [<-|Hin]; [eauto 6|].
  apply (IH st1); assumption.
Qed.

Lemma log2html_calls (infile : list string) (title : string)
    (colours : Colours) (charset : string) (call : Call) :
  In call (calls (log2html infile title colours charset)) →
  call = Head title charset ∨ call = Foot
  ∨ In call (calls (run_lines colours initial infile)).
Proof.
  unfold log2html.
  destruct (outcome (run_lines colours initial infile)); cbn.
  - intros [<-|H]; [auto|]. apply in_app_or in H as [H|[<-|[]]]; auto.
  - intros [<-|H]; auto.
Qed.

(** Every [nicktext] call of [log2html] receives a nick without pointy
    brackets and control characters, a text in which no two spaces
    stand side by side, and a colour of the form [#rrggbb]. *)
Theorem nicktext_arguments (infile : list string) (title : string)
    (colours : Colours) (charset nick text htmlcolour : string) :
  In (Nicktext nick text htmlcolour)
     (calls (log2html infile title colours charset)) →
  all_chars html_safe nick = true ∧ contains "  " text = false
  ∧ is_rrggbb htmlcolour = true.
Proof.
  intros H. apply log2html_calls in H as [H|[H|H]]; try discriminate H.
  destruct initial_ok as [Hc Hm].
  apply (run_lines_calls _ _ _ _ Hc Hm) in H
    as (ev & st1 & st2 & Hc1 & Hm1 & E).
  destruct ev as [t n x|t x|t x|t x|t x o n|t x|t x];
    try (cbn [step what] in E;
         match type of E with
         | context [server_text ?c ?w ?x] =>
             destruct (server_text c w x); discriminate E
         end).
  apply (step_comment _ _ _ _ _ _ _ Hc1 Hm1) in E
    as (link & c & _ & [= -> -> ->] & Hs).
  split; [apply escape_safe|]. split; [|exact Hs].
  apply (replace_spaces_none (String.length link)). lia.
Qed.

Lemma nicktext_arguments_witness :
  all_chars html_safe "a&lt;b" = true
  ∧ contains "  " "x&nbsp;&nbsp; y" = false
  ∧ is_rrggbb "#407a40" = true.
Proof.
  apply (nicktext_arguments ["<a<b> x   y"] "t" DEFAULT_COLOURS "c").
  vm_compute. right. left. reflexivity.
Defined.

End Rendering.

(** ** Links *)

Lemma contains_app_prefix (p a r : string) :
  is_prefix p r = true → contains p (a +:+ r) = true.
Proof.
  intros H. induction a as [|c a IH].
  - apply contains_prefix. exact H.
  - rewrite append_cons. apply contains_cons. exact IH.
Qed.

Lemma after_split (p s r : string) : after p s = Some r → s = p +:+ r.
Proof.
  unfold after. destruct (is_prefix p s) eqn:E; [|discriminate].
  intros [= <-]. apply prefix_drop. exact E.
Qed.

Lemma match_scheme_contains (alts : list string) (s a r : string) :
  match_scheme alts s = Some (a, r) → contains "://" s = true.
Proof.
  induction alts as [|x alts IH]; cbn [match_scheme]; [discriminate|].
  destruct (after x s) as [r1|] eqn:E1; [|exact IH].
  destruct (after "://" r1) as [r2|] eqn:E2; [|exact IH].
  intros _. rewrite (after_split _ _ _ E1).
  apply contains_app_prefix. exact (after_prefix _ _ _ E2).
Qed.

Lemma sub_from_plain (items : list TItem) (s : string) :
  contains "://" s = false → sub_from items 0 s = s.
Proof.
  induction s as [|c s IH]; [reflexivity|]. intros H.
  cbn [sub_from]. unfold match_url.
  destruct (match_scheme schemes (String c s)) as [[a r]|] eqn:E.
  - rewrite (match_scheme_contains _ _ _ _ E) in H. discriminate H.
  - cbn [contains] in H. apply orb_false_elim in H as [_ H].
    rewrite (IH H). reflexivity.
Qed.

(** A text in which no colon is followed by two slashes holds no URL,
    and the substitution of links returns it as it is. *)
Theorem linkify_plain (text : string) :
  contains "://" text = false → linkify text = Ok text.
Proof.
  intros H. unfold linkify. rewrite parse_url_template. cbn [bind].
  rewrite (sub_from_plain _ _ H). reflexivity.
Qed.

Lemma linkify_plain_witness :
  linkify "see http:/x.org and mailto:al" = Ok "see http:/x.org and mailto:al".
Proof. apply linkify_plain. reflexivity. Defined.

(** ** The calls of a run *)

Section Runs.

Local Arguments step : simpl never.

Definition nonblank (raw : string) : bool := negb (all_chars is_crlf raw).

(** The parser does not raise on the line. *)
Definition parses (raw : string) : Prop :=
  ∀ e, parse_line raw ≠ Some (Raise e).

Lemma run_lines_app (colours : Colours) (a b : list string) (st : Registry) :
  run_lines colours st (a ++ b)%list
  = match outcome (run_lines colours st a) with
    | Ok st' =>
        mkRun (calls (run_lines colours st a)
               ++ calls (run_lines colours st' b))%list
          (outcome (run_lines colours st' b))
    | Raise e => run_lines colours st a
    end.
Proof.
  revert st. induction a as [|raw a IH]; intros st; cbn [run_lines app].
  - cbn [outcome calls app]. destruct (run_lines colours st b); reflexivity.
  - destruct (parse_line raw) as [[ev|e]|]; [|reflexivity|apply IH].
    destruct (step colours st ev) as [[st1 k]|e]; [|reflexivity].
    rewrite IH. cbn [emit outcome calls].
    destruct (outcome (run_lines colours st1 a)); reflexivity.
Qed.

Lemma run_lines_count (colours : Colours) (infile : list string)
    (st st' : Registry) :
  outcome (run_lines colours st infile) = Ok st' →
  List.length (calls (run_lines colours st infile))
  = List.length (List.filter nonblank infile).
Proof.
  revert st. induction infile as [|raw infile IH]; intros st;
    cbn [run_lines List.filter]; [reflexivity|].
  unfold nonblank at 1.
  destruct (parse_line raw) as [[ev|e]|] eqn:P.
  - destruct (all_chars is_crlf raw) eqn:B.
    { apply parse_line_blank in B. congruence. }
    destruct (step colours st ev) as [[st1 k]|e]; [|discriminate].
    cbn. intros H. rewrite (IH st1 H). reflexivity.
  - discriminate.
  - apply parse_line_blank in P. rewrite P. cbn [negb]. apply IH.
Qed.

Lemma run_lines_succeeds (colours : Colours) (infile : list string)
    (st : Registry) :
  counters_ok st → colours_ok st →
  (∃ st', outcome (run_lines colours st infile) = Ok st')
  ↔ Forall parses infile.
Proof.
  revert st. induction infile as [|raw infile IH]; intros st Hc Hm;
    cbn [run_lines].
  - split; [constructor | eauto].
  - destruct (parse_line raw) as [[ev|e]|] eqn:P.
    + destruct (step_ok colours st ev Hc Hm) as (st1 & k & -> & Hc1 & Hm1).
      cbn [emit outcome]. rewrite (IH st1 Hc1 Hm1). split.
      * intros H. constructor; [|exact H]. intros e. congruence.
      * intros H. inversion H. assumption.
    + split; [intros [st' H]; discriminate H|].
      intros H. inversion H as [|? ? Hr _]. destruct (Hr e P).
    + rewrite (IH st Hc Hm). split.
      * intros H. constructor; [|exact H]. intros e. congruence.
      * intros H. inversion H. assumption.
Qed.

(** [log2html] returns exactly when the parser raises on no line of
    the input.  It has then called [head] first and [foot] last, and
    between them one method for every line that is not blank, blank
    lines leaving no trace. *)
Theorem log2html_success (infile : list string) (title : string)
    (colours : Colours) (charset : string) :
  ((∃ st, outcome (log2html infile title colours charset) = Ok st)
   ↔ Forall parses infile)
  ∧ (∀ st, outcome (log2html infile title colours charset) = Ok st →
           ∃ body,
             calls (log2html infile title colours charset)
             = (Head title charset :: body ++ [Foot])%list
             ∧ List.length body = List.length (List.filter nonblank infile)
             ∧ ¬ In Foot body ∧ ¬ In (Head title charset) body).
Proof.
  destruct initial_ok as [Hc Hm]. split.
  - rewrite <- (run_lines_succeeds colours infile initial Hc Hm).
    unfold log2html.
    destruct (outcome (run_lines colours initial infile)); cbn; tauto.
  - intros st. unfold log2html.
    destruct (outcome (run_lines colours initial infile)) as [st'|e] eqn:E;
      [|discriminate].
    intros _. exists (calls (run_lines colours initial infile)).
    split; [reflexivity|]. split; [exact (run_lines_count _ _ _ _ E)|].
    split; intros H;
      apply (run_lines_calls _ _ _ _ Hc Hm) in H
        as (ev & st1 & st2 & _ & _ & H);
      unfold step in H;
      destruct ev;
      repeat match type of H with
             | context [nick_colour ?a ?b] => destruct (nick_colour a b)
             | context [linkify ?a] => destruct (linkify a)
             | context [server_text ?a ?b ?c] => destruct (server_text a b c)
             end; discriminate H.
Qed.

Lemma log2html_truncated (pre post : list string) (bad title : string)
    (colours : Colours) (charset : string) (st : Registry) (e : Exn) :
  outcome (run_lines colours initial pre) = Ok st →
  parse_line bad = Some (Raise e) →
  log2html (pre ++ bad :: post) title colours charset
  = mkRun (Head title charset :: calls (run_lines colours initial pre))
      (Raise (NameError "oldnick")).
Proof.
  intros Hpre Hbad. unfold log2html.
  rewrite run_lines_app, Hpre. cbn [run_lines]. rewrite Hbad.
  rewrite (parse_line_raise bad e Hbad). cbn.
  rewrite app_nil_r. reflexivity.
Qed.

(** When the parser raises on a line, [log2html] ends there with the
    [NameError] of the classifier: the calls for the lines before it
    have been made, none is made for the lines after it, and [foot] is
    not called. *)
Theorem rename_line_truncates (pre post : list string) (bad title : string)
    (colours : Colours) (charset : string) (st : Registry) (e : Exn) :
  outcome (run_lines colours initial pre) = Ok st →
  parse_line bad = Some (Raise e) →
  log2html (pre ++ bad :: post) title colours charset
  = mkRun (Head title charset :: calls (run_lines colours initial pre))
      (Raise (NameError "oldnick")).
Proof. apply log2html_truncated. Qed.

Lemma rename_line_truncates_witness :
  log2html (["<al> hi"] ++ "--- al is now known as bob" :: ["<bob> hi"])
    "t" DEFAULT_COLOURS "c"
  = mkRun (Head "t" "c" :: calls (run_lines DEFAULT_COLOURS initial ["<al> hi"]))
      (Raise (NameError "oldnick")).
Proof.
  apply (rename_line_truncates ["<al> hi"] ["<bob> hi"]
           "--- al is now known as bob" "t" DEFAULT_COLOURS "c" al_registry
           (NameError "oldnick")); vm_compute; reflexivity.
Defined.

End Runs.

(** ** The registry of nick colours *)

Section RegistryFacts.

Local Arguments server_text : simpl never.
Local Arguments nick_colour : simpl never.
Local Arguments linkify : simpl never.
Local Arguments escape : simpl never.
Local Arguments replace : simpl never.

(** A nick-change event handed to [log2html] moves the colour of the
    old nick to the new one and removes the old nick from the registry;
    no other nick and neither counter is touched.  When both names are
    the same after escaping, the entry is written and then deleted, so
    the nick loses its colour.  An old nick without a colour changes
    nothing. *)
Theorem nick_change_event (colours : Colours) (st st' : Registry)
    (t : option string) (x o n : string) (call : Call) :
  step colours st (NickChange t x o n) = Ok (st', call) →
  nickcount st' = nickcount st ∧ nickmax st' = nickmax st
  ∧ match colour_nick st !! escape o with
    | Some c =>
        colour_nick st' !! escape o = None
        ∧ (escape n ≠ escape o → colour_nick st' !! escape n = Some c)
        ∧ (∀ k, k ≠ escape o → k ≠ escape n →
                colour_nick st' !! k = colour_nick st !! k)
    | None => st' = st
    end.
Proof.
  cbn [step].
  destruct (server_text colours NICKCHANGE (escape x)); [|discriminate].
  cbn [bind]. intros [= <- _].
  destruct (colour_nick st !! escape o) as [c|] eqn:E; cbn.
  - repeat split.
    + apply lookup_delete_eq.
    + intros N. rewrite lookup_delete_ne by congruence.
      apply lookup_insert_eq.
    + intros k N1 N2. rewrite lookup_delete_ne by congruence.
      apply lookup_insert_ne. congruence.
  - repeat split.
Qed.

Lemma nick_change_event_witness :
  match step DEFAULT_COLOURS al_registry
          (NickChange None "*** al is now known as al" "al" "al") with
  | Ok (st', _) =>
      colour_nick al_registry !! "al" = Some "#407a40"
      ∧ colour_nick st' !! "al" = None ∧ nickcount st' = 1%Z
  | Raise _ => False
  end.
Proof.
  destruct (step DEFAULT_COLOURS al_registry
              (NickChange None "*** al is now known as al" "al" "al"))
    as [[st' call]|e] eqn:E.
  - pose proof (nick_change_event _ _ _ _ _ _ _ _ E) as H.
    change (colour_nick al_registry !! escape "al")
      with (Some "#407a40") in H.
    destruct H as (H1 & _ & H2 & _).
    split; [reflexivity|]. split; [exact H2 | exact H1].
  - vm_compute in E. discriminate E.
Defined.

(** The bound the counters keep on the registry. *)
Definition registry_bound (st : Registry) : Prop :=
  (Z.of_nat (size (colour_nick st)) <= nickcount st)%Z
  ∧ (nickmax st = 30 ∨ 30 <= nickmax st <= 2 * nickcount st)%Z
  ∧ (0 <= nickcount st < nickmax st)%Z.

Lemma step_bound (colours : Colours) (st st' : Registry) (ev : Event)
    (call : Call) :
  registry_bound st → step colours st ev = Ok (st', call) →
  registry_bound st'.
Proof.
  intros (Hs & Hx & Hc).
  destruct ev as [t n x|t x|t x|t x|t x o n|t x|t x]; cbn [step what];
    try (destruct (server_text colours _ (escape x)); [|discriminate];
         cbn [bind]; intros [= <- _]; repeat split; assumption || lia).
  - unfold nick_colour.
    assert (A : bind (let '(nickcount, nickmax) := alloc_args st in
                      let! htmlcolour := html_rgb nickcount nickmax in
                      Ok (mkRegistry
                            (<[escape n := htmlcolour]> (colour_nick st))
                            nickcount nickmax, htmlcolour))
                  (fun r =>
                     let! text := linkify (escape x) in
                     Ok (fst r, Nicktext (escape n)
                                  (replace "  " "&nbsp;&nbsp;" text) (snd r)))
                = Ok (st', call) → registry_bound st').
    { unfold alloc_args.
      destruct (html_rgb _ _) as [h|]; [|discriminate]. cbn [bind].
      destruct (linkify (escape x)); [|discriminate]. cbn [bind fst].
      intros [= <- _]. unfold registry_bound. cbn.
      rewrite map_size_insert.
      destruct (Z.geb_spec (nickcount st + 1) (nickmax st));
        destruct (colour_nick st !! escape n); cbn; lia. }
    destruct (colour_nick st !! escape n) as [[|c s]|]; try exact A.
    cbn [bind]. destruct (linkify (escape x)); [|discriminate].
    cbn [bind fst]. intros [= <- _]. repeat split; assumption || lia.
  - destruct (server_text colours NICKCHANGE (escape x)); [|discriminate].
    cbn [bind]. intros [= <- _].
    destruct (colour_nick st !! escape o) as [c|] eqn:E;
      [|repeat split; assumption || lia].
    unfold registry_bound. cbn. split; [|split; [exact Hx | exact Hc]].
    rewrite map_size_delete, map_size_insert.
    destruct (decide (escape n = escape o)) as [Eq|Ne].
    + rewrite Eq, lookup_insert_eq, E. cbn. lia.
    + rewrite lookup_insert_ne, E by exact Ne.
      destruct (colour_nick st !! escape n); cbn; lia.
Qed.

Lemma run_events_bound (colours : Colours) (evs : list Event)
    (st st' : Registry) :
  registry_bound st → outcome (run_events colours st evs) = Ok st' →
  registry_bound st'.
Proof.
  revert st. induction evs as [|ev evs IH]; intros st Hb; cbn [run_events].
  - intros [= <-]. exact Hb.
  - destruct (step colours st ev) as [[st1 k]|e] eqn:E; [|discriminate].
    cbn. apply IH. exact (step_bound _ _ _ _ _ Hb E).
Qed.

Lemma run_lines_bound (colours : Colours) (infile : list string)
    (st st' : Registry) :
  registry_bound st → outcome (run_lines colours st infile) = Ok st' →
  registry_bound st'.
Proof.
  revert st. induction infile as [|raw infile IH]; intros st Hb;
    cbn [run_lines].
  - intros [= <-]. exact Hb.
  - destruct (parse_line raw) as [[ev|e]|]; [|discriminate|apply IH, Hb].
    destruct (step colours st ev) as [[st1 k]|e] eqn:E; [|discriminate].
    cbn. apply IH. exact (step_bound _ _ _ _ _ Hb E).
Qed.

(** In every run of [log2html], over lines or over any events, nick
    changes included, the registry never holds more nicks than the
    counter says, and the estimate is 30 until the counter reaches it
    and at most twice the counter from then on. *)
Theorem registry_bounded (colours : Colours) (st : Registry) :
  ((∃ evs, outcome (run_events colours initial evs) = Ok st)
   ∨ (∃ infile, outcome (run_lines colours initial infile) = Ok st)) →
  (Z.of_nat (size (colour_nick st)) <= nickcount st)%Z
  ∧ (30 <= nickmax st <= Z.max 30 (2 * nickcount st))%Z.
Proof.
  assert (B : registry_bound initial).
  { unfold registry_bound, initial. cbn. rewrite map_size_empty. lia. }
  assert (G : registry_bound st →
              (Z.of_nat (size (colour_nick st)) <= nickcount st)%Z
              ∧ (30 <= nickmax st <= Z.max 30 (2 * nickcount st))%Z).
  { intros (H1 & H2 & H3). split; [exact H1|]. lia. }
  intros [[evs H]|[infile H]]; apply G.
  - exact (run_events_bound _ _ _ _ B H).
  - exact (run_lines_bound _ _ _ _ B H).
Qed.

Lemma registry_bounded_witness :
  (Z.of_nat (size (colour_nick al_registry)) <= nickcount al_registry)%Z
  ∧ (30 <= nickmax al_registry
        <= Z.max 30 (2 * nickcount al_registry))%Z.
Proof.
  apply (registry_bounded DEFAULT_COLOURS al_registry).
  right. exists ["<al> hi"]. vm_compute. reflexivity.
Defined.

End RegistryFacts.

(** ** Files *)

Section Files.

Variables (progname : string) (style : Style) (colours : Colours).

Lemma length_append (a b : string) :
  String.length (a +:+ b) = (String.length a + String.length b)%nat.
Proof.
  induction a as [|c a IH]; [reflexivity|].
  rewrite append_cons. cbn [String.length]. rewrite IH. reflexivity.
Qed.

Lemma html_name_differs (filename : string) :
  filename +:+ ".html" ≠ filename.
Proof.
  intros H. apply (f_equal String.length) in H.
  rewrite length_append in H. cbn in H. lia.
Qed.

Lemma render_app (a b : list Call) :
  render style (a ++ b)%list = render style a +:+ render style b.
Proof.
  induction a as [|c a IH]; [reflexivity|].
  cbn [app render]. rewrite IH, append_assoc. reflexivity.
Qed.

(** The conversion of a readable file whose output can be written and
    whose log parses: it finishes, the output file holds the header of
    the style with the file name as title, the rendered lines and the
    footer; no other file is created or changed, the input file least
    of all. *)
Theorem convert_writes_one_file (filename data : string) (w : World)
    (st : Registry) :
  open_read w filename = inr data →
  unwritable w !! (filename +:+ ".html") = None →
  outcome (log2html (readlines data) filename colours "iso-8859-1") = Ok st →
  ∃ w' body,
    convert progname style colours filename w = (Finished, w')
    ∧ files w' !! (filename +:+ ".html")
      = Some (head style filename "iso-8859-1" +:+ body +:+ foot style)
    ∧ body = render style (calls (run_lines colours initial (readlines data)))
    ∧ (∀ other, other ≠ filename +:+ ".html" →
                files w' !! other = files w !! other)
    ∧ files w' !! filename = files w !! filename
    ∧ unreadable w' = unreadable w ∧ unwritable w' = unwritable w.
Proof.
  intros Hr Hw Ho. unfold convert, open_write. rewrite Hr, Hw, Ho.
  eexists _, _. split; [reflexivity|].
  cbn [write files unreadable unwritable].
  split; [|split; [reflexivity|]].
  - rewrite lookup_insert_eq. f_equal.
    unfold log2html in *.
    destruct (outcome (run_lines colours initial (readlines data)));
      [|discriminate Ho].
    cbn [calls render print_call]. rewrite render_app. cbn [render].
    rewrite append_nil_r. reflexivity.
  - assert (G : ∀ other, other ≠ filename +:+ ".html" →
                <[filename +:+ ".html" := render style
                    (calls (log2html (readlines data) filename colours
                              "iso-8859-1"))]>
                  (<[filename +:+ ".html" := ""]> (files w)) !! other
                = files w !! other).
    { intros other N. rewrite !lookup_insert_ne by congruence. reflexivity. }
    split; [exact G|]. split; [|split; reflexivity].
    apply G. intros H. exact (html_name_differs filename (eq_sym H)).
Qed.

(** A log with a line on which the parser raises leaves a truncated
    output file: the header and the lines before that line, without
    the footer; the exception leaves [main], so no later file of the
    command line is opened. *)
Theorem convert_stops_at_rename (filename data bad : string)
    (pre post rest : list string) (w : World) (st : Registry) (e : Exn) :
  open_read w filename = inr data →
  unwritable w !! (filename +:+ ".html") = None →
  readlines data = (pre ++ bad :: post)%list →
  outcome (run_lines colours initial pre) = Ok st →
  parse_line bad = Some (Raise e) →
  ∃ w',
    main_loop progname style colours (filename :: rest) w
    = (Uncaught (NameError "oldnick"), w')
    ∧ files w' !! (filename +:+ ".html")
      = Some (head style filename "iso-8859-1"
              +:+ render style (calls (run_lines colours initial pre)))
    ∧ (∀ other, other ≠ filename +:+ ".html" →
                files w' !! other = files w !! other).
Proof.
  intros Hr Hw Hl Hpre Hbad. cbn [main_loop].
  unfold convert, open_write. rewrite Hr, Hw, Hl.
  rewrite (log2html_truncated pre post bad filename colours "iso-8859-1"
             st e Hpre Hbad).
  cbn [outcome calls]. eexists. split; [reflexivity|].
  cbn [write files]. split.
  - rewrite lookup_insert_eq. reflexivity.
  - intros other N. rewrite !lookup_insert_ne by congruence. reflexivity.
Qed.

End Files.

Lemma convert_writes_one_file_witness :
  ∃ w' body,
    convert "irclog2html.py" TableStyle DEFAULT_COLOURS "a.log" one_log
    = (Finished, w')
    ∧ files w' !! ("a.log" +:+ ".html")
      = Some (head TableStyle "a.log" "iso-8859-1" +:+ body
              +:+ foot TableStyle)
    ∧ body = render TableStyle
               (calls (run_lines DEFAULT_COLOURS initial
                         (readlines ("<al> hi" +:+ nl))))
    ∧ (∀ other, other ≠ "a.log" +:+ ".html" →
                files w' !! other = files one_log !! other)
    ∧ files w' !! "a.log" = files one_log !! "a.log"
    ∧ unreadable w' = unreadable one_log
    ∧ unwritable w' = unwritable one_log.
Proof.
  apply (convert_writes_one_file "irclog2html.py" TableStyle DEFAULT_COLOURS
           "a.log" ("<al> hi" +:+ nl) one_log al_registry);
    vm_compute; reflexivity.
Defined.

(** A directory with a log that holds a rename line. *)
Definition rename_log : World :=
  mkWorld (<["r.log" := "<al> hi" +:+ nl +:+ "--- al is now known as bob"
                        +:+ nl +:+ "<bob> hi" +:+ nl]> ∅) ∅ ∅.

Lemma convert_stops_at_rename_witness :
  ∃ w',
    main_loop "irclog2html.py" TableStyle DEFAULT_COLOURS ["r.log"; "a.log"]
      rename_log
    = (Uncaught (NameError "oldnick"), w')
    ∧ files w' !! ("r.log" +:+ ".html")
      = Some (head TableStyle "r.log" "iso-8859-1"
              +:+ render TableStyle
                    (calls (run_lines DEFAULT_COLOURS initial
                              ["<al> hi" +:+ nl])))
    ∧ (∀ other, other ≠ "r.log" +:+ ".html" →
                files w' !! other = files rename_log !! other).
Proof.
  apply (convert_stops_at_rename "irclog2html.py" TableStyle DEFAULT_COLOURS
           "r.log"
           ("<al> hi" +:+ nl +:+ "--- al is now known as bob" +:+ nl
            +:+ "<bob> hi" +:+ nl)
           ("--- al is now known as bob" +:+ nl)
           ["<al> hi" +:+ nl] ["<bob> hi" +:+ nl] ["a.log"] rename_log
           al_registry (NameError "oldnick"));
    vm_compute; reflexivity.
Defined.

(** ** Timestamps and the output *)

Section Timestamps.

Local Arguments step : simpl never.

Definition set_time (t : option string) (ev : Event) : Event :=
  match ev with
  | Comment _ n x => Comment t n x
  | Action _ x => Action t x
  | Join _ x => Join t x
  | Part _ x => Part t x
  | NickChange _ x o n => NickChange t x o n
  | Server _ x => Server t x
  | Other _ x => Other t x
  end.

Lemma classify_retime (time time' : option string) (line : string) :
  classify time' line
  = match classify time line with
    | Ok ev => Ok (set_time time' ev)
    | Raise e => Raise e
    end.
Proof.
  unfold classify. destruct (match_nick line) as [[n x]|]; [reflexivity|].
  repeat match goal with
         | |- context [if ?b then _ else _] => destruct b
         | |- context [match match_nick_change ?l with _ => _ end] =>
             destruct (match_nick_change l) as [[? ?]|]
         end; reflexivity.
Qed.

Lemma step_set_time (colours : Colours) (st : Registry)
    (t : option string) (ev : Event) :
  step colours st (set_time t ev) = step colours st ev.
Proof. destruct ev; reflexivity. Qed.

(** [raw'] is [raw] with a timestamp put before it. *)
Definition stamped (raw' raw : string) : Prop :=
  ∃ t, time_shape t = true
       ∧ (rstrip_crlf raw' = "[" +:+ t +:+ "] " +:+ rstrip_crlf raw
          ∨ rstrip_crlf raw' = t +:+ " " +:+ rstrip_crlf raw).

(** A line that is not blank, does not start with a space and carries
    no timestamp of its own. *)
Definition bare (raw : string) : Prop :=
  rstrip_crlf raw ≠ "" ∧ is_prefix " " (rstrip_crlf raw) = false
  ∧ match_time (rstrip_crlf raw) = None.

Lemma run_lines_stamped (colours : Colours) (infile' infile : list string)
    (st : Registry) :
  Forall2 (fun raw' raw => stamped raw' raw ∧ bare raw) infile' infile →
  run_lines colours st infile' = run_lines colours st infile.
Proof.
  intros H. revert st.
  induction H as [|raw' raw l' l [(t & Ht & Hs) (Hn & Hp & Hm)] _ IH];
    intros st; [reflexivity|].
  cbn [run_lines].
  rewrite (parse_stamped raw' t (rstrip_crlf raw) Ht Hp Hs).
  assert (P : parse_line raw = Some (classify None (rstrip_crlf raw))).
  { unfold parse_line. rewrite Hm.
    apply String.eqb_neq in Hn. rewrite Hn. reflexivity. }
  rewrite P, (classify_retime None (Some t)).
  destruct (classify None (rstrip_crlf raw)) as [ev|e]; [|reflexivity].
  rewrite step_set_time.
  destruct (step colours st ev) as [[st1 k]|e]; [|reflexivity].
  rewrite IH. reflexivity.
Qed.

(** The timestamps of a log leave no trace in the output: putting a
    timestamp before each line of a log whose lines have none changes
    neither the calls [log2html] makes nor the way it ends. *)
Theorem timestamps_dropped (infile' infile : list string) (title : string)
    (colours : Colours) (charset : string) :
  Forall2 (fun raw' raw => stamped raw' raw ∧ bare raw) infile' infile →
  log2html infile' title colours charset
  = log2html infile title colours charset.
Proof.
  intros H. unfold log2html.
  rewrite (run_lines_stamped colours infile' infile initial H). reflexivity.
Qed.

Lemma timestamps_dropped_witness :
  log2html ["[12:30] <al> hi" +:+ nl; "2005-01-09T12:31:07 * al waves" +:+ nl]
    "t" DEFAULT_COLOURS "c"
  = log2html ["<al> hi" +:+ nl; "* al waves" +:+ nl] "t" DEFAULT_COLOURS "c".
Proof.
  apply timestamps_dropped.
  constructor; [|constructor; [|constructor]].
  - split.
    + exists "12:30". split; [reflexivity|]. left. reflexivity.
    + repeat split. discriminate.
  - split.
    + exists "2005-01-09T12:31:07". split; [reflexivity|]. right. reflexivity.
    + repeat split. discriminate.
Defined.

End Timestamps.
